(** * aioxmpp: tag dispatch core and entity-capabilities cache

    A shallow embedding of
    - [asyncio_xmpp/callbacks.py] (class [TagDispatcher] and its listeners),
    - [aioxmpp/entitycaps/service.py] (classes [Cache] and
      [EntityCapsService], function [writeback]),
    together with the properties of these two cores. *)

From Stdlib Require Import Ascii String List ZArith.
From stdpp Require Import base option list gmap strings pretty.

Local Open Scope string_scope.
Local Open Scope list_scope.

(** ** Python values, exceptions and results *)

Module Py.

(** The exception classes the two modules raise, catch or let through. *)
Inductive Exc : Type :=
| KeyError
| IndexError
| ValueError (msg : string)
| TypeError (msg : string)
| OSError (msg : string)
| AssertionError (msg : string)
| InvalidStateError
| TransportError (msg : string).

(** The objects handed to callbacks. *)
Inductive Value : Type :=
| VNone
| VBool (b : bool)
| VInt (z : Z)
| VStr (s : string).

(** Python truthiness, as [bool(v)] computes it. *)
Definition truthy (v : Value) : bool :=
  match v with
  | VNone => false
  | VBool b => b
  | VInt z => negb (Z.eqb z 0)
  | VStr s => negb (String.eqb s EmptyString)
  end.

(** A call either returns a value or raises. *)
Inductive Result (A : Type) : Type :=
| Returned (a : A)
| Raised (e : Exc).
Arguments Returned {A} a.
Arguments Raised {A} e.

Definition is_ValueError (e : Exc) : bool :=
  match e with ValueError _ => true | _ => false end.

Definition is_KeyError (e : Exc) : bool :=
  match e with KeyError => true | _ => false end.

End Py.

(** ** [asyncio_xmpp/callbacks.py] *)

Module Callbacks.
Import Py.

Abbreviation Tag := string (only parsing).

(** A Python callable handed to the dispatcher: its name identifies it in
    the call log, its body says what a call returns or raises. *)
Record Callable : Type := mkCallable {
  fn_name : string;
  fn_body : Value -> Result Value
}.

(** An entry of the call log: which callable ran, on which argument. *)
Abbreviation Call := (string * Value)%type (only parsing).

(** What [add_listener] accepts: an instance of [TagListener], or any
    other object with a [data] and an [error] method. *)
Inductive Listener : Type :=
| TagListener (_ondata : Callable) (_onerror : option Callable)
| DuckListener (data_method error_method : Callable).

(** State of one [TagDispatcher], with the log of the callables run. *)
Record State : Type := mkState {
  _listeners : gmap Tag Listener;
  call_log : list Call
}.

(** Statements of a method: state passing, the mutations made before an
    exception stay. *)
Definition M (A : Type) : Type := State -> Result A * State.

Definition ret {A} (a : A) : M A := fun s => (Returned a, s).
Definition raise {A} (e : Exc) : M A := fun s => (Raised e, s).
Definition bind {A B} (m : M A) (f : A -> M B) : M B :=
  fun s => match m s with
           | (Returned a, s') => f a s'
           | (Raised e, s') => (Raised e, s')
           end.

Notation "'let!' x ':=' m 'in' k" := (bind m (fun x => k))
  (at level 10, x name, m at level 100, k at level 200).

(** Calling a callable: the call is logged, then its body decides. *)
Definition call (f : Callable) (arg : Value) : M Value :=
  fun s =>
    (fn_body f arg,
     {| _listeners := _listeners s; call_log := call_log s ++ [(fn_name f, arg)] |}).

(** [TagListener.data]: runs [_ondata], returns nothing. *)
Definition listener_data (l : Listener) (data : Value) : M Value :=
  match l with
  | TagListener ondata _ => let! _ := call ondata data in ret VNone
  | DuckListener data_method _ => call data_method data
  end.


(** The callable behind the [data] method of a listener. *)
Definition data_callable (l : Listener) : Callable :=
  match l with
  | TagListener ondata _ => ondata
  | DuckListener data_method _ => data_method
  end.



(** [TagDispatcher()] *)
Definition init : State := {| _listeners := ∅; call_log := [] |}.

(** A callable that returns [v] whatever it is given, as
    [unittest.mock.Mock(return_value=v)] does. *)
Definition mock (name : string) (v : Value) : Callable :=
  {| fn_name := name; fn_body := fun _ => Returned v |}.

(** [TagDispatcher.add_listener] *)
Definition add_listener (tag : Tag) (listener : Listener) : M Value :=
  fun s =>
    match _listeners s !! tag with
    | None =>
        (Returned VNone,
         {| _listeners := <[tag := listener]> (_listeners s);
            call_log := call_log s |})
    | Some existing =>
        (Raised (ValueError "only one listener is allowed per tag"), s)
    end.

(** [TagDispatcher.add_callback] *)
Definition add_callback (tag : Tag) (fn : Callable) : M Value :=
  add_listener tag (TagListener fn None).

(** [TagDispatcher.unicast] *)
Definition unicast (tag : Tag) (data : Value) : M Value :=
  fun s =>
    match _listeners s !! tag with
    | None => (Raised KeyError, s)
    | Some cb => (let! _ := listener_data cb data in ret VNone) s
    end.

(** [TagDispatcher.remove_listener] *)
Definition remove_listener (tag : Tag) : M Value :=
  fun s =>
    match _listeners s !! tag with
    | None => (Raised KeyError, s)
    | Some _ =>
        (Returned VNone,
         {| _listeners := delete tag (_listeners s); call_log := call_log s |})
    end.






End Callbacks.

(** ** [asyncio_xmpp/callbacks.py]: [Token] and [CallbacksWithToken] *)

Module TokenCallbacks.
Import Py.

(** [Token]: a tuple of one field, [key]; [__hash__] is [id(self)] and
    [__eq__] is [self is other], so a token is told from another by its
    identity, not by its key. *)
Record Token : Type := mkToken {
  token_id : nat;
  key : string
}.

(** [token == other] *)
Definition token_eqb (t1 t2 : Token) : bool :=
  Nat.eqb (token_id t1) (token_id t2).

(** A call the loop has accepted through [call_soon]: the function and its
    positional arguments. *)
Record ScheduledCall : Type := mkScheduled {
  sc_fn : Callbacks.Callable;
  sc_args : list Value
}.

(** One of the inner dictionaries, from token to function, in insertion
    order. *)
Abbreviation TokenDict := (list (Token * Callbacks.Callable)) (only parsing).

(** [d[token] = fn] *)
Fixpoint dict_set (token : Token) (fn : Callbacks.Callable) (d : TokenDict)
  : TokenDict :=
  match d with
  | [] => [(token, fn)]
  | (t, f) :: rest =>
      if token_eqb t token then (t, fn) :: rest
      else (t, f) :: dict_set token fn rest
  end.

(** [d.pop(token)]: the function and the dictionary without the token, or
    nothing ([KeyError]) when the token is not a key. *)
Fixpoint dict_pop (token : Token) (d : TokenDict)
  : option (Callbacks.Callable * TokenDict) :=
  match d with
  | [] => None
  | (t, f) :: rest =>
      if token_eqb t token then Some (f, rest)
      else match dict_pop token rest with
           | Some (fn, rest') => Some (fn, (t, f) :: rest')
           | None => None
           end
  end.

(** A [CallbacksWithToken]: its dictionary of dictionaries, the calls its
    loop has been asked to make, and the identity the next new object
    gets. *)
Record State : Type := mkState {
  _callbacks : gmap string TokenDict;
  _loop : list ScheduledCall;
  next_id : nat
}.

(** [CallbacksWithToken.__init__], on the keys it is given. *)
Definition init (keys : list string) : State :=
  {| _callbacks := foldr (fun key m => <[key := []]> m) ∅ keys;
     _loop := [];
     next_id := 0 |}.

(** [CallbacksWithToken.add_callback] *)
Definition add_callback (k : string) (fn : Callbacks.Callable) (s : State)
  : Result Token * State :=
  let token := {| token_id := next_id s; key := k |} in
  match _callbacks s !! k with
  | None =>
      (Raised KeyError,
       {| _callbacks := _callbacks s; _loop := _loop s; next_id := S (next_id s) |})
  | Some d =>
      (Returned token,
       {| _callbacks := <[k := dict_set token fn d]> (_callbacks s);
          _loop := _loop s;
          next_id := S (next_id s) |})
  end.

(** [CallbacksWithToken.remove_callback] *)
Definition remove_callback (token : Token) (s : State) : Result Value * State :=
  match _callbacks s !! key token with
  | None => (Raised KeyError, s)
  | Some d =>
      match dict_pop token d with
      | None => (Raised KeyError, s)
      | Some (_, d') =>
          (Returned VNone,
           {| _callbacks := <[key token := d']> (_callbacks s);
              _loop := _loop s;
              next_id := next_id s |})
      end
  end.

(** [self._loop.call_soon(fn, *args, **kwargs)]: [call_soon] takes a
    callback and positional arguments only; handed a keyword argument, the
    call raises [TypeError] and schedules nothing. *)
Definition call_soon (fn : Callbacks.Callable) (args : list Value)
    (kwargs : list (string * Value)) (s : State) : Result Value * State :=
  match kwargs with
  | [] =>
      (Returned VNone,
       {| _callbacks := _callbacks s;
          _loop := _loop s ++ [{| sc_fn := fn; sc_args := args |}];
          next_id := next_id s |})
  | _ :: _ =>
      (Raised (TypeError "call_soon() got an unexpected keyword argument"), s)
  end.

(** The loop of [emit] over the values of one dictionary. *)
Fixpoint emit_loop (d : TokenDict) (args : list Value)
    (kwargs : list (string * Value)) (s : State) : Result Value * State :=
  match d with
  | [] => (Returned VNone, s)
  | (_, fn) :: rest =>
      match call_soon fn args kwargs s with
      | (Returned _, s') => emit_loop rest args kwargs s'
      | (Raised e, s') => (Raised e, s')
      end
  end.

(** [CallbacksWithToken.emit] *)
Definition emit (k : string) (args : list Value) (kwargs : list (string * Value))
    (s : State) : Result Value * State :=
  match _callbacks s !! k with
  | None => (Raised KeyError, s)
  | Some d => emit_loop d args kwargs s
  end.

(** The tokens in the dictionaries are objects that exist: they carry the
    key they are filed under, and an identity given out before. *)
Definition tokens_allocated (s : State) : Prop :=
  forall k d t fn,
    _callbacks s !! k = Some d -> (t, fn) ∈ d ->
    token_id t < next_id s /\ key t = k.

(** A token is new to a dictionary when no key of it has its identity. *)
Definition new_to (token : Token) (d : TokenDict) : Prop :=
  forall t f, (t, f) ∈ d -> token_eqb t token = false.

(** A dispatcher for the keys of a stream, with one callback registered. *)
Definition one_callback : State :=
  {| _callbacks :=
       <["opened" := [({| token_id := 0; key := "opened" |},
                       Callbacks.mock "on_opened" VNone)]]>
         (<["closed" := []]> ∅);
     _loop := [];
     next_id := 1 |}.

(** The calls [emit] hands to the loop for a dictionary. *)
Definition calls_of (d : TokenDict) (args : list Value) : list ScheduledCall :=
  (fun entry => {| sc_fn := snd entry; sc_args := args |}) <$> d.

End TokenCallbacks.

(** ** [aioxmpp/entitycaps/service.py] *)

Module EntityCaps.
Import Py.

(** A [pathlib] path, as the list of its components; [a / b] is [a ++ b]. *)
Abbreviation Path := (list string) (only parsing).

Abbreviation JID := string (only parsing).

(** Futures are objects compared with [is]: each has an identity. *)
Abbreviation FutId := nat (only parsing).

(** The SAX events an [InfoQuery] keeps from the stream it was parsed from. *)
Inductive SaxEvent : Type :=
| StartElement (name : string)
| Characters (text : string)
| EndElement (name : string).

(** [disco.xso.InfoQuery]: the feature description of a peer. *)
Record InfoQuery : Type := mkInfoQuery {
  identities : list string;
  features : list string;
  captured_events : list SaxEvent
}.

(** [copy.copy(entry)]: a new object with the same attribute values. *)
Definition copy_copy (entry : InfoQuery) : InfoQuery :=
  {| identities := identities entry;
     features := features entry;
     captured_events := captured_events entry |}.

(** What the code asks of a capability key (the classes of [caps115] and
    [caps390]): hashable, comparable, with a [node], a relative [path] and
    [verify]. *)
Class CapsKey (K : Type) `{Countable K} : Type := {
  node : K -> string;
  path : K -> Path;
  verify : K -> InfoQuery -> bool
}.

(** *** The file system *)

Inductive FileNode : Type :=
| Directory
| File (readable : bool) (content : string).

Record FileSystem : Type := mkFS {
  files : gmap Path FileNode;
  tmp_names : nat
}.

(** [path.open("rb")]: the content of a readable file, [OSError] otherwise. *)
Definition open_rb (fs : FileSystem) (p : Path) : Result string :=
  match files fs !! p with
  | Some (File true content) => Returned content
  | Some (File false _) => Raised (OSError "Permission denied")
  | Some Directory => Raised (OSError "Is a directory")
  | None => Raised (OSError "No such file or directory")
  end.

(** [tempfile.NamedTemporaryFile(dir=..., delete=False)]: a new empty file
    in an existing directory. *)
Definition NamedTemporaryFile (dir : Path) (fs : FileSystem)
  : Result Path * FileSystem :=
  match files fs !! dir with
  | Some Directory =>
      let name := dir ++ [String.append "tmp" (pretty (tmp_names fs))] in
      (Returned name,
       {| files := <[name := File true EmptyString]> (files fs);
          tmp_names := S (tmp_names fs) |})
  | _ => (Raised (OSError "No such file or directory"), fs)
  end.

Definition write_file (p : Path) (content : string) (fs : FileSystem)
  : FileSystem :=
  {| files := <[p := File true content]> (files fs); tmp_names := tmp_names fs |}.

(** [os.unlink] *)
Definition os_unlink (p : Path) (fs : FileSystem) : FileSystem :=
  {| files := delete p (files fs); tmp_names := tmp_names fs |}.

(** A path written as a string, cut at every [/]; [cur] is the component
    being read. *)
Fixpoint path_split (s cur : string) : list string :=
  match s with
  | EmptyString => [cur]
  | String c rest =>
      if Ascii.eqb c "/"%char then cur :: path_split rest EmptyString
      else path_split rest (String.append cur (String c EmptyString))
  end.

(** The components [pathlib] keeps of such a string: the empty ones and
    [.] are dropped. *)
Definition path_components (s : string) : list string :=
  List.filter
    (fun c => negb (String.eqb c EmptyString || String.eqb c "."))
    (path_split s EmptyString).

Definition is_absolute (s : string) : bool :=
  match s with
  | String c _ => Ascii.eqb c "/"%char
  | EmptyString => false
  end.

(** [base / name] for a string [name]: its components are appended; a
    [name] that starts at the root replaces [base]. *)
Definition path_div (base : Path) (name : string) : Path :=
  if is_absolute name then "/" :: path_components name
  else base ++ path_components name.

(** [os.replace(src, dst)] for a file [src]: [dst] atomically becomes what
    [src] was, whether [dst] was a file or nothing; it raises [OSError]
    when [src] is missing, when the directory of [dst] is, or when [dst]
    is a directory. *)
Definition os_replace (src dst : Path) (fs : FileSystem)
  : Result unit * FileSystem :=
  match files fs !! src, files fs !! removelast dst with
  | Some f, Some Directory =>
      match files fs !! dst with
      | Some Directory => (Raised (OSError "Is a directory"), fs)
      | _ =>
          (Returned tt,
           {| files := <[dst := f]> (delete src (files fs));
              tmp_names := tmp_names fs |})
      end
  | _, _ => (Raised (OSError "No such file or directory"), fs)
  end.

(** *** Futures and the event loop *)

Inductive FutState : Type :=
| Pending
| FinishedResult (result : InfoQuery)
| FinishedException (exc : Exc).

(** The arguments a call can carry to the executor. *)
Inductive Arg : Type :=
| ArgPath (p : Path)
| ArgStr (s : string)
| ArgEvents (events : list SaxEvent).

(** A call handed to [run_in_executor]: the function and its positional
    arguments. *)
Inductive Job : Type :=
| CallWriteback (args : list Arg).

(** The two implementations the service holds, [self.__115] and
    [self.__390]; they key [self.__current_keys]. *)
Inductive Impl : Type := Xep115 | Xep390.

#[global] Instance Impl_eq_dec : EqDecision Impl.
Proof. solve_decision. Defined.

#[global] Instance Impl_countable : Countable Impl :=
  inj_countable'
    (fun i => match i with Xep115 => false | Xep390 => true end)
    (fun b => if b then Xep390 else Xep115)
    (fun i => match i with Xep115 => eq_refl | Xep390 => eq_refl end).

Inductive PresenceType : Type := AVAILABLE | UNAVAILABLE | SUBSCRIBE | PROBE.

Record Presence : Type := mkPresence {
  from_ : JID;
  type_ : PresenceType;
  payload : list string
}.

(** What the service does to its collaborators, in order: the calls of
    [disco_server.unmount_node] and [mount_node], and the firing of the
    signal [on_ver_changed]. *)
Inductive Effect : Type :=
| UnmountNode (mountpoint : string)
| MountNode (mountpoint : string) (info : InfoQuery)
| OnVerChanged.

(** How often a trace fires [on_ver_changed]. *)
Definition is_ver_changed (e : Effect) : bool :=
  match e with OnVerChanged => true | _ => false end.

Definition ver_changed_count (trace : list Effect) : nat :=
  length (List.filter is_ver_changed trace).

Section Model.

Context {K : Type} `{CapsKey K}.

(** The collaborators at the boundary of the module:
    [aioxmpp.xml.read_single_xso(f, disco.xso.InfoQuery)] on the content of
    an opened file; the document [XMPPXMLGenerator] produces from
    [aioxmpp.xso.events_to_sax]; [urllib.parse.quote] with nothing safe;
    [calculate_keys] and [extract_keys] of the two implementations. *)
Context (read_single_xso : string -> Result InfoQuery).
Context (events_to_sax : list SaxEvent -> Result string).
Context (quote : string -> string).
Context (calculate_keys : Impl -> InfoQuery -> list K).
Context (extract_keys : Impl -> Presence -> list K).

(** A done-callback of a future: [functools.partial(self._erase_future, key)]. *)
Inductive DoneCallback : Type :=
| EraseFuture (key : K).

Record Future : Type := mkFuture {
  fut_state : FutState;
  fut_callbacks : list DoneCallback
}.

(** The attributes of a [Cache]. *)
Record Cache : Type := mkCache {
  _lookup_cache : gmap K FutId;
  _memory_overlay : gmap K InfoQuery;
  _system_db_path : option Path;
  _user_db_path : option Path
}.

(** Everything the methods read and write: the cache, the futures that
    exist, the calls the loop has been asked to make soon ([call_soon]), the
    calls waiting in the executor, and the file system. *)
Record World : Type := mkWorld {
  cache : Cache;
  futures : gmap FutId Future;
  ready : list (DoneCallback * FutId);
  executor : list Job;
  fs : FileSystem
}.

Definition set_lookup_cache (m : gmap K FutId) (w : World) : World :=
  {| cache := {| _lookup_cache := m;
                 _memory_overlay := _memory_overlay (cache w);
                 _system_db_path := _system_db_path (cache w);
                 _user_db_path := _user_db_path (cache w) |};
     futures := futures w; ready := ready w; executor := executor w;
     fs := fs w |}.

Definition set_memory_overlay (m : gmap K InfoQuery) (w : World) : World :=
  {| cache := {| _lookup_cache := _lookup_cache (cache w);
                 _memory_overlay := m;
                 _system_db_path := _system_db_path (cache w);
                 _user_db_path := _user_db_path (cache w) |};
     futures := futures w; ready := ready w; executor := executor w;
     fs := fs w |}.

Definition set_futures (m : gmap FutId Future) (w : World) : World :=
  {| cache := cache w; futures := m; ready := ready w;
     executor := executor w; fs := fs w |}.

Definition set_ready (r : list (DoneCallback * FutId)) (w : World) : World :=
  {| cache := cache w; futures := futures w; ready := r;
     executor := executor w; fs := fs w |}.

Definition set_executor (e : list Job) (w : World) : World :=
  {| cache := cache w; futures := futures w; ready := ready w;
     executor := e; fs := fs w |}.

Definition set_fs (f : FileSystem) (w : World) : World :=
  {| cache := cache w; futures := futures w; ready := ready w;
     executor := executor w; fs := f |}.

(** The future behind an identity; one nobody has touched yet is pending
    and has no callback. *)
Definition get_future (w : World) (fut : FutId) : Future :=
  default {| fut_state := Pending; fut_callbacks := [] |} (futures w !! fut).

Definition future_state (w : World) (fut : FutId) : FutState :=
  fut_state (get_future w fut).

(** [asyncio.Future()] *)
Definition new_future (w : World) : FutId * World :=
  let fut := fresh (dom (futures w)) in
  (fut,
   set_futures
     (<[fut := {| fut_state := Pending; fut_callbacks := [] |}]> (futures w)) w).

(** [fut.add_done_callback(cb)]: kept for later on a pending future,
    called soon on a done one. *)
Definition add_done_callback (fut : FutId) (cb : DoneCallback) (w : World)
  : World :=
  let f := get_future w fut in
  match fut_state f with
  | Pending =>
      set_futures
        (<[fut := {| fut_state := Pending;
                     fut_callbacks := fut_callbacks f ++ [cb] |}]> (futures w)) w
  | _ => set_ready (ready w ++ [(cb, fut)]) w
  end.

(** [fut.set_result] and [fut.set_exception]: only a pending future can be
    settled; its callbacks are then handed to [call_soon], once. *)
Definition settle (fut : FutId) (st : FutState) (w : World)
  : Result unit * World :=
  let f := get_future w fut in
  match fut_state f with
  | Pending =>
      (Returned tt,
       set_ready (ready w ++ map (fun cb => (cb, fut)) (fut_callbacks f))
         (set_futures
            (<[fut := {| fut_state := st; fut_callbacks := [] |}]> (futures w))
            w))
  | _ => (Raised InvalidStateError, w)
  end.

Definition set_result (fut : FutId) (result : InfoQuery) (w : World)
  : Result unit * World :=
  settle fut (FinishedResult result) w.

Definition set_exception (fut : FutId) (exc : Exc) (w : World)
  : Result unit * World :=
  settle fut (FinishedException exc) w.

(** [Cache._erase_future] *)
Definition _erase_future (key : K) (fut : FutId) (w : World) : World :=
  match _lookup_cache (cache w) !! key with
  | None => w
  | Some existing =>
      if decide (existing = fut)
      then set_lookup_cache (delete key (_lookup_cache (cache w))) w
      else w
  end.

(** The loop making one of the calls it was asked to make soon. *)
Definition run_handle (h : DoneCallback * FutId) (w : World) : World :=
  match h with
  | (EraseFuture key, fut) => _erase_future key fut w
  end.

(** One iteration of the loop: every call that is ready is made. *)
Definition run_ready (w : World) : World :=
  foldl (fun w' h => run_handle h w') (set_ready [] w) (ready w).

(** [Cache.set_system_db_path] *)
Definition set_system_db_path (p : option Path) (w : World) : World :=
  {| cache := {| _lookup_cache := _lookup_cache (cache w);
                 _memory_overlay := _memory_overlay (cache w);
                 _system_db_path := p;
                 _user_db_path := _user_db_path (cache w) |};
     futures := futures w; ready := ready w; executor := executor w;
     fs := fs w |}.

(** [Cache.set_user_db_path] *)
Definition set_user_db_path (p : option Path) (w : World) : World :=
  {| cache := {| _lookup_cache := _lookup_cache (cache w);
                 _memory_overlay := _memory_overlay (cache w);
                 _system_db_path := _system_db_path (cache w);
                 _user_db_path := p |};
     futures := futures w; ready := ready w; executor := executor w;
     fs := fs w |}.

(** How [lookup_in_database] ended: the three hits it logs ("memory cache
    hit", "system db hit", "user db hit"; the two store hits return what
    [read_single_xso] makes of the file), or [raise KeyError(key)]. *)
Inductive DbOutcome : Type :=
| MemoryHit (result : InfoQuery)
| SystemHit (parsed : Result InfoQuery)
| UserHit (parsed : Result InfoQuery)
| NotFound.

Definition db_result (o : DbOutcome) : Result InfoQuery :=
  match o with
  | MemoryHit result => Returned result
  | SystemHit parsed => parsed
  | UserHit parsed => parsed
  | NotFound => Raised KeyError
  end.

(** The user tier of [lookup_in_database]; [opened] lists the files the
    earlier tiers tried to open. *)
Definition lookup_in_user_db (c : Cache) (fs : FileSystem) (key_path : Path)
    (opened : list Path) : list Path * DbOutcome :=
  match _user_db_path c with
  | Some user_db_path =>
      match open_rb fs (user_db_path ++ key_path) with
      | Raised (OSError _) => (opened ++ [user_db_path ++ key_path], NotFound)
      | Raised e => (opened ++ [user_db_path ++ key_path], UserHit (Raised e))
      | Returned f =>
          (opened ++ [user_db_path ++ key_path], UserHit (read_single_xso f))
      end
  | None => (opened, NotFound)
  end.

(** [Cache.lookup_in_database]: the files it tried to open, in order, and
    how it ended. *)
Definition lookup_in_database (c : Cache) (fs : FileSystem) (key : K)
  : list Path * DbOutcome :=
  match _memory_overlay c !! key with
  | Some result => ([], MemoryHit result)
  | None =>
      let key_path := path key in
      match _system_db_path c with
      | Some system_db_path =>
          match open_rb fs (system_db_path ++ key_path) with
          | Raised (OSError _) =>
              lookup_in_user_db c fs key_path [system_db_path ++ key_path]
          | Raised e => ([system_db_path ++ key_path], SystemHit (Raised e))
          | Returned f =>
              ([system_db_path ++ key_path], SystemHit (read_single_xso f))
          end
      | None => lookup_in_user_db c fs key_path []
      end
  end.

(** The lookup in the store as the specification words it: each tier is a
    read that answers with an entry or misses; a store that is not
    configured misses, and a read failure at a store, whatever fails, is a
    miss too; the first tier that answers wins, in the order memory
    overlay, system store, user store; not-found when the three miss. *)
Definition tier_memory (c : Cache) (key : K) : option InfoQuery :=
  _memory_overlay c !! key.

Definition tier_store (db_path : option Path) (fs : FileSystem) (key : K)
  : option InfoQuery :=
  match db_path with
  | None => None
  | Some p =>
      match open_rb fs (p ++ path key) with
      | Returned f =>
          match read_single_xso f with
          | Returned entry => Some entry
          | Raised _ => None
          end
      | Raised _ => None
      end
  end.

Definition first_hit (tier next : option InfoQuery) : option InfoQuery :=
  match tier with
  | Some entry => Some entry
  | None => next
  end.

Definition lookup_in_store (c : Cache) (fs : FileSystem) (key : K)
  : Result InfoQuery :=
  match first_hit (tier_memory c key)
          (first_hit (tier_store (_system_db_path c) fs key)
             (tier_store (_user_db_path c) fs key)) with
  | Some entry => Returned entry
  | None => Raised KeyError
  end.

(** What the code takes for a miss of a store: the store is not
    configured, or [open] raises [OSError] on its file for the key. *)
Definition store_misses (db_path : option Path) (fs : FileSystem) (key : K) : Prop :=
  match db_path with
  | None => True
  | Some p => exists msg, open_rb fs (p ++ path key) = Raised (OSError msg)
  end.

(** The file a store would open for a key. *)
Definition store_file (db_path : option Path) (key : K) : list Path :=
  match db_path with
  | None => []
  | Some p => [p ++ path key]
  end.

(** [Cache.create_query_future] *)
Definition create_query_future (key : K) (w : World) : FutId * World :=
  let (fut, w1) := new_future w in
  let w2 := add_done_callback fut (EraseFuture key) w1 in
  (fut, set_lookup_cache (<[key := fut]> (_lookup_cache (cache w2))) w2).

(** [Cache.add_cache_entry] *)
Definition add_cache_entry (key : K) (entry : InfoQuery) (w : World) : World :=
  let copied_entry := copy_copy entry in
  let w1 :=
    set_memory_overlay (<[key := copied_entry]> (_memory_overlay (cache w))) w in
  match _user_db_path (cache w1) with
  | Some user_db_path =>
      set_executor
        (executor w1 ++
         [CallWriteback [ArgPath (user_db_path ++ path key);
                         ArgEvents (captured_events entry)]]) w1
  | None => w1
  end.

(** [writeback(base_path, hash_, node, captured_events)] *)
Definition writeback (base_path : Path) (hash_ node : string)
    (captured_events : list SaxEvent) (fs : FileSystem)
  : Result unit * FileSystem :=
  let quoted := quote node in
  let dest_path :=
    path_div base_path
      (String.append hash_ (String.append "_" (String.append quoted ".xml"))) in
  match NamedTemporaryFile base_path fs with
  | (Raised e, fs1) => (Raised e, fs1)
  | (Returned tmpf, fs1) =>
      match events_to_sax captured_events with
      | Raised e => (Raised e, os_unlink tmpf fs1)
      | Returned document => os_replace tmpf dest_path (write_file tmpf document fs1)
      end
  end.

(** A job running in the executor: Python binds the positional arguments to
    the parameters of the function, and raises [TypeError] when they do not
    fit. *)
Definition run_job (j : Job) (fs : FileSystem) : Result unit * FileSystem :=
  match j with
  | CallWriteback [ArgPath base_path; ArgStr hash_; ArgStr node; ArgEvents captured_events] =>
      writeback base_path hash_ node captured_events fs
  | CallWriteback _ =>
      (Raised (TypeError "writeback() missing required positional arguments"), fs)
  end.

(** The executor taking the oldest job: its result stays in a future nobody
    reads. *)
Definition run_executor (w : World) : option (Result unit) * World :=
  match executor w with
  | [] => (None, w)
  | j :: rest =>
      let (r, fs') := run_job j (fs w) in
      (Some r, set_fs fs' (set_executor rest w))
  end.

(** *** Coroutines

    A coroutine runs on the world until it returns, raises, or is suspended:
    on a pending future, or in [disco_client.query_info]. A suspended
    coroutine is resumed later, on the world as it is then. *)
Inductive Step (R : Type) : Type :=
| Return (r : R) (w : World)
| Raise (e : Exc) (w : World)
| YieldFuture (fut : FutId) (w : World) (k : World -> Step R)
| YieldQueryInfo (jid : JID) (node_ : string) (require_fresh : bool)
    (w : World) (k : Result InfoQuery -> World -> Step R)
| Diverge.
Arguments Return {R} r w.
Arguments Raise {R} e w.
Arguments YieldFuture {R} fut w k.
Arguments YieldQueryInfo {R} jid node_ require_fresh w k.
Arguments Diverge {R}.

(** [try: body / except: handler / else: orelse]; with no handler and
    [orelse] the rest of the block, it is sequencing. *)
Fixpoint try_except {A R : Type} (body : Step A)
    (handler : Exc -> option (World -> Step R))
    (orelse : A -> World -> Step R) : Step R :=
  match body with
  | Return a w => orelse a w
  | Raise e w =>
      match handler e with
      | Some h => h w
      | None => Raise e w
      end
  | YieldFuture fut w k =>
      YieldFuture fut w (fun w' => try_except (k w') handler orelse)
  | YieldQueryInfo jid n rf w k =>
      YieldQueryInfo jid n rf w
        (fun answer w' => try_except (k answer w') handler orelse)
  | Diverge => Diverge
  end.

Definition bind {A B : Type} (m : World -> Step A) (f : A -> World -> Step B)
  : World -> Step B :=
  fun w => try_except (m w) (fun _ => None) f.

Notation "'let!' x ':=' m 'in' k" := (bind m (fun x => k))
  (at level 10, x name, m at level 100, k at level 200).

(** A statement that does not suspend. *)
Definition sync {A : Type} (f : World -> Result A * World) : World -> Step A :=
  fun w => match f w with
           | (Returned a, w') => Return a w'
           | (Raised e, w') => Raise e w'
           end.

Definition effect (f : World -> World) : World -> Step unit :=
  fun w => Return tt (f w).

(** [yield from fut] ([Future.__iter__]): a done future answers at once; a
    pending one suspends the coroutine, which reads the result when it is
    resumed. *)
Definition read_future (fut : FutId) : World -> Step InfoQuery :=
  fun w => match future_state w fut with
           | Pending => Raise (AssertionError "yield from wasn't used with future") w
           | FinishedResult result => Return result w
           | FinishedException exc => Raise exc w
           end.

Definition yield_from (fut : FutId) : World -> Step InfoQuery :=
  fun w => match future_state w fut with
           | Pending => YieldFuture fut w (read_future fut)
           | _ => read_future fut w
           end.

(** [yield from self.disco_client.query_info(jid, node=..., require_fresh=...)]:
    the answer, or the error, comes from the peer. *)
Definition query_info (jid : JID) (node_ : string) (require_fresh : bool)
  : World -> Step InfoQuery :=
  fun w => YieldQueryInfo jid node_ require_fresh w
             (fun answer w' =>
                match answer with
                | Returned data => Return data w'
                | Raised e => Raise e w'
                end).

(** The [while True] loop of [Cache.lookup]; [fuel] bounds its iterations. *)
Fixpoint lookup_loop (fuel : nat) (key : K) (w : World) {struct fuel}
  : Step InfoQuery :=
  match fuel with
  | 0 => Diverge
  | S fuel' =>
      match _lookup_cache (cache w) !! key with
      | None => Raise KeyError w
      | Some fut =>
          try_except (yield_from fut w)
            (fun e => if is_ValueError e then Some (lookup_loop fuel' key) else None)
            (fun result w' => Return result w')
      end
  end.

(** [Cache.lookup] *)
Definition lookup (fuel : nat) (key : K) : World -> Step InfoQuery :=
  fun w =>
    match db_result (snd (lookup_in_database (cache w) (fs w) key)) with
    | Returned result => Return result w
    | Raised KeyError => lookup_loop fuel key w
    | Raised e => Raise e w
    end.

(** [EntityCapsService.query_and_cache] *)
Definition query_and_cache (jid : JID) (key : K) (fut : FutId)
  : World -> Step InfoQuery :=
  let! data := query_info jid (node key) true in
  let! _ :=
    (fun w =>
       try_except
         ((if verify key data
           then let! _ := effect (add_cache_entry key data) in
                sync (set_result fut data)
           else fun w' => Raise (ValueError "hash mismatch") w') w)
         (fun exc =>
            if is_ValueError exc then Some (sync (set_exception fut exc)) else None)
         (fun r w' => Return r w')) in
  fun w => Return data w.

(** The [for key in keys] loop of [lookup_info], followed by [rest]. *)
Fixpoint lookup_info_loop (fuel : nat) (keys : list K)
    (rest : World -> Step InfoQuery) (w : World) : Step InfoQuery :=
  match keys with
  | [] => rest w
  | key :: keys' =>
      try_except (lookup fuel key w)
        (fun e =>
           if is_KeyError e then Some (lookup_info_loop fuel keys' rest) else None)
        (fun info w' => Return info w')
  end.

(** [EntityCapsService.lookup_info] *)
Definition lookup_info (fuel : nat) (jid : JID) (keys : list K)
  : World -> Step InfoQuery :=
  lookup_info_loop fuel keys
    (fun w =>
       match keys with
       | [] => Raise IndexError w
       | first_key :: _ =>
           let (fut, w1) := create_query_future first_key w in
           (let! info := query_and_cache jid first_key fut in
            fun w' => Return info w') w1
       end).

(** Resuming a suspended coroutine. *)
Definition resume_future {R : Type} (s : Step R) (w' : World) : Step R :=
  match s with
  | YieldFuture _ _ k => k w'
  | _ => s
  end.

Definition resume_query {R : Type} (s : Step R) (answer : Result InfoQuery)
    (w' : World) : Step R :=
  match s with
  | YieldQueryInfo _ _ _ _ k => k answer w'
  | _ => s
  end.

(** How a coroutine stands: finished with a result, or not yet. *)
Definition outcome {R : Type} (s : Step R) : option (Result R) :=
  match s with
  | Return r _ => Some (Returned r)
  | Raise e _ => Some (Raised e)
  | _ => None
  end.

(** The world a coroutine left, where it stopped or was suspended. *)
Definition world_of {R : Type} (s : Step R) : option World :=
  match s with
  | Return _ w | Raise _ w | YieldFuture _ w _ | YieldQueryInfo _ _ _ w _ => Some w
  | Diverge => None
  end.


(** *** The service *)

Record DiscoServer : Type := mkDiscoServer {
  server_info : InfoQuery;
  _node_mounts : gmap string InfoQuery
}.

(** The attributes of an [EntityCapsService] that its filters and
    [update_hash] use, the effects it had on its collaborators, and the
    tasks it started with [asyncio.async]. *)
Record Service : Type := mkService {
  __current_keys : gmap Impl (gset K);
  xep115_support : bool;
  xep390_support : bool;
  disco_server : DiscoServer;
  effects : list Effect;
  tasks : list (JID * list K);
  info_futures : list (JID * nat)
}.

(** [self.disco_server.unmount_node(mountpoint)] *)
Definition unmount_node (svc : Service) (mountpoint : string) : Service :=
  {| __current_keys := __current_keys svc;
     xep115_support := xep115_support svc;
     xep390_support := xep390_support svc;
     disco_server :=
       {| server_info := server_info (disco_server svc);
          _node_mounts := delete mountpoint (_node_mounts (disco_server svc)) |};
     effects := effects svc ++ [UnmountNode mountpoint];
     tasks := tasks svc;
     info_futures := info_futures svc |}.

(** [self.disco_server.mount_node(mountpoint, node)] *)
Definition mount_node (info : InfoQuery) (svc : Service) (mountpoint : string)
  : Service :=
  {| __current_keys := __current_keys svc;
     xep115_support := xep115_support svc;
     xep390_support := xep390_support svc;
     disco_server :=
       {| server_info := server_info (disco_server svc);
          _node_mounts :=
            <[mountpoint := info]> (_node_mounts (disco_server svc)) |};
     effects := effects svc ++ [MountNode mountpoint info];
     tasks := tasks svc;
     info_futures := info_futures svc |}.

Definition set_current_keys (keys : gmap Impl (gset K)) (svc : Service)
  : Service :=
  {| __current_keys := keys;
     xep115_support := xep115_support svc;
     xep390_support := xep390_support svc;
     disco_server := disco_server svc;
     effects := effects svc;
     tasks := tasks svc;
     info_futures := info_futures svc |}.

(** [self.on_ver_changed()] *)
Definition on_ver_changed (svc : Service) : Service :=
  {| __current_keys := __current_keys svc;
     xep115_support := xep115_support svc;
     xep390_support := xep390_support svc;
     disco_server := disco_server svc;
     effects := effects svc ++ [OnVerChanged];
     tasks := tasks svc;
     info_futures := info_futures svc |}.

(** The keys met by [for group in d.values(): for key in group]. *)
Definition keys_of (d : gmap Impl (gset K)) : list K :=
  mjoin ((fun g => elements (snd g)) <$> map_to_list d).

(** The dictionary [new_keys] that [update_hash] builds. *)
Definition new_keys_of (svc : Service) : gmap Impl (gset K) :=
  let info := server_info (disco_server svc) in
  let new_keys := ∅ in
  let new_keys :=
    if xep115_support svc
    then <[Xep115 := list_to_set (calculate_keys Xep115 info)]> new_keys
    else new_keys in
  if xep390_support svc
  then <[Xep390 := list_to_set (calculate_keys Xep390 info)]> new_keys
  else new_keys.

(** [EntityCapsService.update_hash] *)
Definition update_hash (svc : Service) : Service :=
  let info := server_info (disco_server svc) in
  let new_keys := new_keys_of svc in
  if decide (__current_keys svc = new_keys) then svc
  else
    let svc1 :=
      foldl (fun s key => unmount_node s (node key)) svc
        (keys_of (__current_keys svc)) in
    let svc2 := set_current_keys new_keys svc1 in
    let svc3 :=
      foldl (fun s key => mount_node info s (node key)) svc2 (keys_of new_keys) in
    on_ver_changed svc3.

(** [EntityCapsService._shutdown] *)
Definition _shutdown (svc : Service) : Service :=
  foldl (fun s key => unmount_node s (node key)) svc (keys_of (__current_keys svc)).

(** [EntityCapsService.handle_inbound_presence]: the filter returns the
    presence; a task running [lookup_info] is started when keys were found. *)
Definition handle_inbound_presence (svc : Service) (presence : Presence)
  : Presence * Service :=
  let keys := [] in
  let keys :=
    if xep390_support svc then keys ++ extract_keys Xep390 presence else keys in
  let keys :=
    if xep115_support svc then keys ++ extract_keys Xep115 presence else keys in
  match keys with
  | [] => (presence, svc)
  | _ :: _ =>
      (presence,
       {| __current_keys := __current_keys svc;
          xep115_support := xep115_support svc;
          xep390_support := xep390_support svc;
          disco_server := disco_server svc;
          effects := effects svc;
          tasks := tasks svc ++ [(from_ presence, keys)];
          info_futures :=
            info_futures svc ++ [(from_ presence, length (tasks svc))] |})
  end.

End Model.

Arguments Return {K _ _ R} r w.
Arguments Raise {K _ _ R} e w.
Arguments YieldFuture {K _ _ R} fut w k.
Arguments YieldQueryInfo {K _ _ R} jid node_ require_fresh w k.
Arguments Diverge {K _ _ R}.

End EntityCaps.

(** ** Concrete keys and collaborators for the examples *)

Module Fixtures.
Import Py EntityCaps.

(** A key as a plain triple: scheme, hash value, node. *)
Record SimpleKey : Type := mkKey {
  key_algo : string;
  key_hash : string;
  key_node : string
}.

#[global] Instance SimpleKey_eq_dec : EqDecision SimpleKey.
Proof. solve_decision. Defined.

#[global] Instance SimpleKey_countable : Countable SimpleKey :=
  inj_countable'
    (fun k => (key_algo k, key_hash k, key_node k))
    (fun t => mkKey t.1.1 t.1.2 t.2)
    (fun k => match k with mkKey _ _ _ => eq_refl end).

(** A stand-in for the hash of a feature description: its features, joined. *)
Definition digest (info : InfoQuery) : string :=
  String.concat ";" (features info).

#[global] Instance SimpleKey_caps : CapsKey SimpleKey := {|
  node := key_node;
  path := fun k =>
    ["hashes"; String.append (key_algo k) (String.append "_" (String.append (key_hash k) ".xml"))];
  verify := fun k info => bool_decide (key_hash k = digest info)
|}.

Definition info_of (fs : list string) : InfoQuery :=
  {| identities := ["client/pc"]; features := fs;
     captured_events := [StartElement "query"; EndElement "query"] |}.

(** A file holds the features of one description, one per line. *)
Definition read_single_xso (content : string) : Result InfoQuery :=
  if bool_decide (content = EmptyString) then Raised (ValueError "no element")
  else Returned (info_of [content]).

Definition events_to_sax (events : list SaxEvent) : Result string :=
  Returned
    (String.concat EmptyString
       ((fun e => match e with
                  | StartElement n => String.append "<" (String.append n ">")
                  | Characters t => t
                  | EndElement n => String.append "</" (String.append n ">")
                  end) <$> events)).

(** A generator that fails in the middle of the document. *)
Definition failing_events_to_sax (events : list SaxEvent) : Result string :=
  Raised (OSError "No space left on device").

Definition quote (s : string) : string := s.

Definition algo_of (i : Impl) : string :=
  match i with Xep115 => "sha-1" | Xep390 => "sha-256" end.

Definition calculate_keys (i : Impl) (info : InfoQuery) : list SimpleKey :=
  [mkKey (algo_of i) (digest info)
     (String.append "http://aioxmpp.zombofant.net/#" (String.append (algo_of i) (digest info)))].

Definition extract_keys (i : Impl) (presence : Presence) : list SimpleKey :=
  (fun h => mkKey (algo_of i) h (String.append "node#" h)) <$> payload presence.

Definition empty_cache : Cache (K := SimpleKey) :=
  {| _lookup_cache := ∅; _memory_overlay := ∅;
     _system_db_path := None; _user_db_path := None |}.

(** A process that has just started: nothing cached, nothing pending, a
    file system with the directory of the user store. *)
Definition world0 : World (K := SimpleKey) :=
  {| cache := empty_cache; futures := ∅; ready := []; executor := [];
     fs := {| files := {[ ["user"] := Directory ]}; tmp_names := 0 |} |}.

Definition key0 : SimpleKey := mkKey "sha-1" "a;b" "node#a;b".

(** What a peer answers: [good_info] hashes to [key0], [bad_info] does not. *)
Definition good_info : InfoQuery := info_of ["a"; "b"].
Definition bad_info : InfoQuery := info_of ["a"; "evil"].

(** A service that advertises keys of both schemes and has just had
    [xep390_support] switched off. *)
Definition server0 : DiscoServer :=
  {| server_info := good_info; _node_mounts := ∅ |}.

Definition service0 : Service (K := SimpleKey) :=
  {| __current_keys :=
       {[ Xep115 := list_to_set (calculate_keys Xep115 good_info);
          Xep390 := list_to_set (calculate_keys Xep390 good_info) ]};
     xep115_support := true;
     xep390_support := false;
     disco_server := server0;
     effects := [];
     tasks := [];
     info_futures := [] |}.

(** A cache with both stores configured; the system store has no file for
    [key0], the user store has one. *)
Definition cache_two_stores : Cache (K := SimpleKey) :=
  {| _lookup_cache := ∅; _memory_overlay := ∅;
     _system_db_path := Some ["system"]; _user_db_path := Some ["user"] |}.

Definition fs_user_entry : FileSystem :=
  {| files := {[ ["user"] := Directory;
                 ["user"; "hashes"] := Directory;
                 ["user"; "hashes"; "sha-1_a;b.xml"] := File true "a;b" ]};
     tmp_names := 0 |}.

(** [world0] after [set_user_db_path]. *)
Definition world_user : World (K := SimpleKey) :=
  set_user_db_path (Some ["user"]) world0.

Definition peer : JID := "romeo@montague.lit/orchard".

(** A second key, and [world0] with an entry for it in memory. *)
Definition key1 : SimpleKey := mkKey "sha-256" "c" "node#c".

Definition world_cached : World (K := SimpleKey) :=
  add_cache_entry key1 (info_of ["c"]) world0.

(** A world whose system store has a file for [key0] that is empty, and
    whose user store has a good one. *)
Definition world_corrupt : World (K := SimpleKey) :=
  {| cache := cache_two_stores; futures := ∅; ready := []; executor := [];
     fs := {| files :=
                <[ ["system"; "hashes"; "sha-1_a;b.xml"] := File true EmptyString ]>
                  (files fs_user_entry);
              tmp_names := 0 |} |}.



End Fixtures.

(** * Properties of the tag dispatcher *)

Module CallbacksFacts.
Import Py Callbacks.

Lemma call_log_call f arg s :
  call_log (snd (call f arg s)) = call_log s ++ [(fn_name f, arg)].
Proof. reflexivity. Qed.

Lemma listeners_call f arg s :
  _listeners (snd (call f arg s)) = _listeners s.
Proof. reflexivity. Qed.

(** The [data] method of a listener calls its callable once, on the data,
    and touches nothing else. *)
Lemma listener_data_effect l data s :
  snd (listener_data l data s) =
  {| _listeners := _listeners s;
     call_log := call_log s ++ [(fn_name (data_callable l), data)] |}.
Proof.
  destruct l as [ondata onerror | dm em]; simpl; [|reflexivity].
  unfold bind, call. destruct (fn_body ondata data); reflexivity.
Qed.

(** What [unicast] does on a registered tag: one call of the listener's
    callable; the registry is as it was. *)
Lemma unicast_registered tag data l s :
  _listeners s !! tag = Some l ->
  snd (unicast tag data s) =
  {| _listeners := _listeners s;
     call_log := call_log s ++ [(fn_name (data_callable l), data)] |}.
Proof.
  intros Hl. unfold unicast. rewrite Hl. unfold bind.
  pose proof (listener_data_effect l data s) as E.
  destruct (listener_data l data s) as [[v|e] s']; simpl in *; exact E.
Qed.

(** C3, on the input of [test_unicast_removes_for_true_result]: a callback
    that returns [True] is registered with [add_callback], and [unicast] is
    called twice on its tag. The second [unicast] does not raise [KeyError]:
    the listener is still registered and is called a second time. The same
    happens to a listener object whose own [data] method returns [True]. *)
Theorem unicast_keeps_consumed_listener :
  let obj := VStr "obj" in
  let nh := snd (add_callback "tag" (mock "mock" (VBool true)) init) in
  let nh1 := snd (unicast "tag" obj nh) in
  let oneshot := DuckListener (mock "data" (VBool true)) (mock "error" (VBool true)) in
  let dh := snd (add_listener "tag" oneshot init) in
  let dh1 := snd (unicast "tag" obj dh) in
  fst (unicast "tag" obj nh) = Returned VNone /\
  is_Some (_listeners nh1 !! "tag") /\
  fst (unicast "tag" obj nh1) = Returned VNone /\
  call_log (snd (unicast "tag" obj nh1)) = [("mock", obj); ("mock", obj)] /\
  fst (listener_data oneshot obj dh) = Returned (VBool true) /\
  is_Some (_listeners dh1 !! "tag") /\
  fst (unicast "tag" obj dh1) = Returned VNone /\
  call_log (snd (unicast "tag" obj dh1)) = [("data", obj); ("data", obj)].
Proof.
  cbv zeta. unfold add_callback, add_listener, init. simpl.
  rewrite lookup_empty. simpl.
  repeat (unfold unicast at 1; simpl; rewrite ?lookup_insert_eq; simpl).
  repeat split; try reflexivity; eauto.
Qed.

(** C9: [add_listener] on a tag that has a listener raises [ValueError] and
    leaves the dispatcher as it was; a [unicast] on that tag afterwards
    still calls the first listener with the data. *)
Theorem add_listener_registered_tag_rejected
    (s : State) (tag : Tag) (l1 l2 : Listener) (data : Value) :
  _listeners s !! tag = Some l1 ->
  add_listener tag l2 s =
    (Raised (ValueError "only one listener is allowed per tag"), s) /\
  _listeners (snd (add_listener tag l2 s)) !! tag = Some l1 /\
  unicast tag data (snd (add_listener tag l2 s)) = unicast tag data s /\
  snd (unicast tag data (snd (add_listener tag l2 s))) =
    {| _listeners := _listeners s;
       call_log := call_log s ++ [(fn_name (data_callable l1), data)] |} /\
  (forall v, fn_body (data_callable l1) data = Returned v ->
     exists r, fst (unicast tag data (snd (add_listener tag l2 s))) = Returned r).
Proof.
  intros Hl.
  assert (E : add_listener tag l2 s =
              (Raised (ValueError "only one listener is allowed per tag"), s)).
  { unfold add_listener. rewrite Hl. reflexivity. }
  rewrite E. simpl. repeat split; auto.
  - apply unicast_registered; assumption.
  - intros v Hv. unfold unicast. rewrite Hl.
    destruct l1 as [ondata onerror | dm em]; simpl in *;
      unfold bind, call; simpl; rewrite Hv; simpl; eauto.
Qed.

(** C9 on the dispatcher of [test_add_listener]. *)
Lemma add_listener_registered_tag_rejected_witness :
  let l := TagListener (mock "mock" VNone) None in
  let nh := snd (add_listener "tag" l init) in
  add_listener "tag" l nh =
    (Raised (ValueError "only one listener is allowed per tag"), nh) /\
  call_log (snd (unicast "tag" (VInt 1) (snd (add_listener "tag" l nh)))) =
    [("mock", VInt 1)].
Proof.
  cbv zeta.
  destruct (add_listener_registered_tag_rejected
              (snd (add_listener "tag" (TagListener (mock "mock" VNone) None) init))
              "tag" (TagListener (mock "mock" VNone) None)
              (TagListener (mock "mock" VNone) None) (VInt 1))
    as (E & _ & _ & U & _).
  - unfold add_listener, init. simpl. rewrite lookup_empty. simpl.
    apply lookup_insert_eq.
  - split; [exact E|]. rewrite U. reflexivity.
Defined.

(** *** More on the dispatcher *)


(** [remove_listener] on a registered tag calls nothing and unregisters
    that tag only: [unicast] and a second [remove_listener] on the tag then
    raise [KeyError], and the tag is free for a new listener. *)
Theorem remove_listener_unregisters (tag : Tag) (l : Listener) (s : State)
    (data : Value) :
  _listeners s !! tag = Some l ->
  let s' := snd (remove_listener tag s) in
  fst (remove_listener tag s) = Returned VNone /\
  call_log s' = call_log s /\
  _listeners s' !! tag = None /\
  (forall tag', tag' <> tag -> _listeners s' !! tag' = _listeners s !! tag') /\
  unicast tag data s' = (Raised KeyError, s') /\
  remove_listener tag s' = (Raised KeyError, s') /\
  (forall l2,
     fst (add_listener tag l2 s') = Returned VNone /\
     _listeners (snd (add_listener tag l2 s')) !! tag = Some l2).
Proof.
  intros Hl. cbv zeta.
  assert (E : remove_listener tag s =
              (Returned VNone,
               {| _listeners := delete tag (_listeners s); call_log := call_log s |})).
  { unfold remove_listener. rewrite Hl. reflexivity. }
  rewrite E. cbn [fst snd _listeners call_log].
  assert (Hnone : delete tag (_listeners s) !! tag = None) by apply lookup_delete_eq.
  repeat split.
  - exact Hnone.
  - intros tag' Hne. apply lookup_delete_ne. congruence.
  - unfold unicast. cbn [_listeners]. rewrite Hnone. reflexivity.
  - unfold remove_listener. cbn [_listeners]. rewrite Hnone. reflexivity.
  - unfold add_listener. cbn [_listeners]. rewrite Hnone. reflexivity.
  - unfold add_listener. cbn [_listeners]. rewrite Hnone. cbn [snd _listeners].
    apply lookup_insert_eq.
Qed.

Lemma remove_listener_unregisters_witness :
  let l := TagListener (mock "mock" VNone) None in
  let nh := snd (add_listener "tag" l init) in
  fst (remove_listener "tag" nh) = Returned VNone /\
  unicast "tag" (VInt 1) (snd (remove_listener "tag" nh)) =
    (Raised KeyError, snd (remove_listener "tag" nh)).
Proof.
  cbv zeta.
  destruct (remove_listener_unregisters "tag" (TagListener (mock "mock" VNone) None)
              (snd (add_listener "tag" (TagListener (mock "mock" VNone) None) init))
              (VInt 1))
    as (R & _ & _ & _ & U & _).
  - vm_compute. reflexivity.
  - split; [exact R | exact U].
Defined.

(** [remove_listener] on a tag without listener raises [KeyError] and
    changes nothing. *)
Lemma remove_listener_unregistered (tag : Tag) (s : State) :
  _listeners s !! tag = None -> remove_listener tag s = (Raised KeyError, s).
Proof. intros Hl. unfold remove_listener. rewrite Hl. reflexivity. Qed.

(** [add_listener] on a free tag registers the listener without calling
    it; [unicast] on the tag then calls exactly that listener, and every
    other tag answers as before. *)
Theorem add_listener_then_unicast (tag : Tag) (l : Listener) (s : State)
    (data : Value) :
  _listeners s !! tag = None ->
  let s1 := snd (add_listener tag l s) in
  fst (add_listener tag l s) = Returned VNone /\
  _listeners s1 = <[tag := l]> (_listeners s) /\
  call_log s1 = call_log s /\
  call_log (snd (unicast tag data s1)) =
    call_log s ++ [(fn_name (data_callable l), data)] /\
  (forall tag', tag' <> tag ->
     fst (unicast tag' data s1) = fst (unicast tag' data s) /\
     call_log (snd (unicast tag' data s1)) = call_log (snd (unicast tag' data s))).
Proof.
  intros Hl. cbv zeta.
  assert (E : add_listener tag l s =
              (Returned VNone,
               {| _listeners := <[tag := l]> (_listeners s); call_log := call_log s |})).
  { unfold add_listener. rewrite Hl. reflexivity. }
  rewrite E. cbn [fst snd _listeners call_log].
  repeat split.
  - rewrite (unicast_registered tag data l); [reflexivity|].
    cbn [_listeners]. apply lookup_insert_eq.
  - unfold unicast. cbn [_listeners]. rewrite lookup_insert_ne by congruence.
    destruct (_listeners s !! tag') as [l'|]; [|reflexivity].
    destruct l' as [ondata onerror | dm em]; simpl; unfold bind, call; simpl;
      destruct (fn_body _ data); reflexivity.
  - unfold unicast. cbn [_listeners]. rewrite lookup_insert_ne by congruence.
    destruct (_listeners s !! tag') as [l'|]; [|reflexivity].
    destruct l' as [ondata onerror | dm em]; simpl; unfold bind, call; simpl;
      destruct (fn_body _ data); reflexivity.
Qed.

Lemma add_listener_then_unicast_witness :
  let l := DuckListener (mock "data" (VBool false)) (mock "error" VNone) in
  fst (add_listener "tag" l init) = Returned VNone /\
  call_log (snd (unicast "tag" (VInt 7) (snd (add_listener "tag" l init)))) =
    [("data", VInt 7)].
Proof.
  cbv zeta.
  destruct (add_listener_then_unicast "tag"
              (DuckListener (mock "data" (VBool false)) (mock "error" VNone))
              init (VInt 7))
    as (R & _ & _ & U & _).
  - vm_compute. reflexivity.
  - split; [exact R | exact U].
Defined.












End CallbacksFacts.

(** * Properties of [CallbacksWithToken] *)

Module TokenCallbacksFacts.
Import Py TokenCallbacks.

Implicit Types (d : list (Token * Callbacks.Callable)) (s : State).

Lemma new_to_cons token t f d :
  new_to token ((t, f) :: d) -> token_eqb t token = false /\ new_to token d.
Proof.
  intros Hnew. split; [apply (Hnew t f); left|].
  intros t' f' Hin. apply (Hnew t' f'). right. exact Hin.
Qed.

Lemma dict_set_new token fn d :
  new_to token d -> dict_set token fn d = d ++ [(token, fn)].
Proof.
  induction d as [|[t f] d IH]; intros Hnew; [reflexivity|].
  apply new_to_cons in Hnew as [Ht Hd]. cbn [dict_set]. rewrite Ht.
  rewrite (IH Hd). reflexivity.
Qed.

Lemma dict_pop_new token d : new_to token d -> dict_pop token d = None.
Proof.
  induction d as [|[t f] d IH]; intros Hnew; [reflexivity|].
  apply new_to_cons in Hnew as [Ht Hd]. cbn [dict_pop]. rewrite Ht.
  rewrite (IH Hd). reflexivity.
Qed.

Lemma token_eqb_refl token : token_eqb token token = true.
Proof. unfold token_eqb. apply Nat.eqb_refl. Qed.

Lemma dict_pop_middle token fn d rest :
  new_to token d ->
  dict_pop token (d ++ (token, fn) :: rest) = Some (fn, d ++ rest).
Proof.
  induction d as [|[t f] d IH]; intros Hnew.
  - cbn [app dict_pop]. rewrite token_eqb_refl. reflexivity.
  - apply new_to_cons in Hnew as [Ht Hd]. cbn [app dict_pop]. rewrite Ht.
    rewrite (IH Hd). reflexivity.
Qed.

Lemma dict_pop_subset token d fn d' :
  dict_pop token d = Some (fn, d') -> forall x, x ∈ d' -> x ∈ d.
Proof.
  revert fn d'. induction d as [|[t f] d IH]; intros fn d' Hpop x Hin;
    [discriminate Hpop|].
  cbn [dict_pop] in Hpop. destruct (token_eqb t token).
  - inversion Hpop; subst. right. exact Hin.
  - destruct (dict_pop token d) as [[fn0 rest]|] eqn:E; [|discriminate Hpop].
    inversion Hpop; subst. apply elem_of_cons in Hin as [->|Hin]; [left|].
    right. eapply IH; [reflexivity | exact Hin].
Qed.

Lemma dict_set_elem token fn d x :
  x ∈ dict_set token fn d -> fst x = token \/ (exists f, (fst x, f) ∈ d).
Proof.
  induction d as [|[t f] d IH]; cbn [dict_set].
  - intros Hin. apply list_elem_of_singleton in Hin. subst. left. reflexivity.
  - destruct (token_eqb t token).
    + intros Hin. apply elem_of_cons in Hin as [->|Hin].
      * right. exists f. left.
      * right. exists (snd x). destruct x. right. exact Hin.
    + intros Hin. apply elem_of_cons in Hin as [->|Hin].
      * right. exists f. left.
      * destruct (IH Hin) as [E|[f' Hf']]; [left; exact E|].
        right. exists f'. right. exact Hf'.
Qed.

(** A token about to be made is new to every dictionary. *)
Lemma allocated_new s k d :
  tokens_allocated s -> _callbacks s !! k = Some d ->
  forall k', new_to {| token_id := next_id s; key := k' |} d.
Proof.
  intros Hwf Hd k' t f Hin. destruct (Hwf k d t f Hd Hin) as [Hlt _].
  unfold token_eqb. cbn. apply Nat.eqb_neq. lia.
Qed.

(** [add_callback] on a known key returns a token that no registration
    carries yet, under this key or any other, and files the function under
    it behind the registrations there are; the other keys are as before. On
    an unknown key it raises [KeyError] and registers nothing. *)
Theorem add_callback_new_token s k d (fn : Callbacks.Callable) :
  tokens_allocated s ->
  _callbacks s !! k = Some d ->
  let token := {| token_id := next_id s; key := k |} in
  fst (add_callback k fn s) = Returned token /\
  _callbacks (snd (add_callback k fn s)) =
    <[k := d ++ [(token, fn)]]> (_callbacks s) /\
  _loop (snd (add_callback k fn s)) = _loop s /\
  (forall k' d', _callbacks s !! k' = Some d' -> new_to token d') /\
  (forall k', _callbacks s !! k' = None ->
     fst (add_callback k' fn s) = Raised KeyError /\
     _callbacks (snd (add_callback k' fn s)) = _callbacks s).
Proof.
  intros Hwf Hd. cbv zeta. unfold add_callback at 1 2 3. rewrite Hd.
  cbn [fst snd _callbacks _loop].
  rewrite (dict_set_new _ fn d (allocated_new s k d Hwf Hd k)).
  split; [reflexivity|]. split; [reflexivity|]. split; [reflexivity|]. split.
  - intros k' d' Hd'. apply (allocated_new s k' d' Hwf Hd').
  - intros k' Hk'. unfold add_callback. rewrite Hk'. split; reflexivity.
Qed.

Lemma add_callback_new_token_witness :
  fst (add_callback "opened" (Callbacks.mock "again" VNone) one_callback) =
    Returned {| token_id := 1; key := "opened" |} /\
  fst (add_callback "nokey" (Callbacks.mock "again" VNone) one_callback) =
    Raised KeyError.
Proof.
  destruct (add_callback_new_token one_callback "opened"
              [({| token_id := 0; key := "opened" |}, Callbacks.mock "on_opened" VNone)]
              (Callbacks.mock "again" VNone))
    as (R & _ & _ & _ & Hunknown).
  - intros k d t fn Hd Hin. unfold one_callback in Hd. cbn [_callbacks] in Hd.
    apply lookup_insert_Some in Hd as [[<- <-]|[_ Hd]].
    + apply list_elem_of_singleton in Hin. inversion Hin; subst.
      split; [cbn; lia | reflexivity].
    + apply lookup_insert_Some in Hd as [[<- <-]|[_ Hd]];
        [inversion Hin | rewrite lookup_empty in Hd; discriminate Hd].
  - vm_compute. reflexivity.
  - split; [exact R|]. apply Hunknown. vm_compute. reflexivity.
Defined.

(** [remove_callback] with the token [add_callback] returned undoes the
    registration: the dictionaries are those of before. The token is then
    spent: a second [remove_callback] with it raises [KeyError]. *)
Theorem add_then_remove_callback s k d (fn : Callbacks.Callable) :
  tokens_allocated s ->
  _callbacks s !! k = Some d ->
  let token := {| token_id := next_id s; key := k |} in
  let s1 := snd (add_callback k fn s) in
  let s2 := snd (remove_callback token s1) in
  fst (remove_callback token s1) = Returned VNone /\
  _callbacks s2 = _callbacks s /\
  _loop s2 = _loop s /\
  remove_callback token s2 = (Raised KeyError, s2).
Proof.
  intros Hwf Hd. cbv zeta.
  pose proof (allocated_new s k d Hwf Hd k) as Hnew.
  assert (E1 : add_callback k fn s =
               (Returned {| token_id := next_id s; key := k |},
                {| _callbacks :=
                     <[k := d ++ [({| token_id := next_id s; key := k |}, fn)]]>
                       (_callbacks s);
                   _loop := _loop s; next_id := S (next_id s) |})).
  { unfold add_callback. rewrite Hd, (dict_set_new _ fn d Hnew). reflexivity. }
  rewrite E1. cbn [snd].
  assert (E2 : remove_callback {| token_id := next_id s; key := k |}
                 {| _callbacks :=
                      <[k := d ++ [({| token_id := next_id s; key := k |}, fn)]]>
                        (_callbacks s);
                    _loop := _loop s; next_id := S (next_id s) |} =
               (Returned VNone,
                {| _callbacks := _callbacks s; _loop := _loop s;
                   next_id := S (next_id s) |})).
  { unfold remove_callback. cbn [key _callbacks _loop next_id].
    rewrite lookup_insert_eq, (dict_pop_middle _ fn d [] Hnew), app_nil_r.
    rewrite insert_insert_eq, (insert_id _ _ _ Hd). reflexivity. }
  rewrite E2. cbn [fst snd _callbacks _loop].
  split; [reflexivity|]. split; [reflexivity|]. split; [reflexivity|].
  unfold remove_callback. cbn [key _callbacks]. rewrite Hd, (dict_pop_new _ d Hnew).
  reflexivity.
Qed.

Lemma add_then_remove_callback_witness :
  let token := {| token_id := 1; key := "opened" |} in
  let s1 := snd (add_callback "opened" (Callbacks.mock "again" VNone) one_callback) in
  fst (remove_callback token s1) = Returned VNone /\
  _callbacks (snd (remove_callback token s1)) = _callbacks one_callback.
Proof.
  cbv zeta.
  destruct (add_then_remove_callback one_callback "opened"
              [({| token_id := 0; key := "opened" |}, Callbacks.mock "on_opened" VNone)]
              (Callbacks.mock "again" VNone))
    as (R & E & _).
  - intros k d t fn Hd Hin. unfold one_callback in Hd. cbn [_callbacks] in Hd.
    apply lookup_insert_Some in Hd as [[<- <-]|[_ Hd]].
    + apply list_elem_of_singleton in Hin. inversion Hin; subst.
      split; [cbn; lia | reflexivity].
    + apply lookup_insert_Some in Hd as [[<- <-]|[_ Hd]];
        [inversion Hin | rewrite lookup_empty in Hd; discriminate Hd].
  - vm_compute. reflexivity.
  - split; [exact R | exact E].
Defined.

Lemma add_callback_eq s k d (fn : Callbacks.Callable) :
  tokens_allocated s ->
  _callbacks s !! k = Some d ->
  add_callback k fn s =
  (Returned {| token_id := next_id s; key := k |},
   {| _callbacks :=
        <[k := d ++ [({| token_id := next_id s; key := k |}, fn)]]> (_callbacks s);
      _loop := _loop s; next_id := S (next_id s) |}).
Proof.
  intros Hwf Hd. unfold add_callback.
  rewrite Hd, (dict_set_new _ fn d (allocated_new s k d Hwf Hd k)). reflexivity.
Qed.

Lemma add_callback_allocated s k (fn : Callbacks.Callable) :
  tokens_allocated s -> tokens_allocated (snd (add_callback k fn s)).
Proof.
  intros Hwf. destruct (_callbacks s !! k) as [d|] eqn:Hd.
  - rewrite (add_callback_eq s k d fn Hwf Hd). cbn [snd].
    intros k' d' t f Hd' Hin. cbn [_callbacks next_id] in *.
    apply lookup_insert_Some in Hd' as [[<- <-]|[_ Hd']].
    + apply elem_of_app in Hin as [Hin|Hin].
      * destruct (Hwf k d t f Hd Hin) as [Hlt Hk]. split; [lia | exact Hk].
      * apply list_elem_of_singleton in Hin. inversion Hin; subst.
        split; [cbn; lia | reflexivity].
    + destruct (Hwf k' d' t f Hd' Hin) as [Hlt Hk]. split; [lia | exact Hk].
  - unfold add_callback. rewrite Hd. cbn [snd].
    intros k' d' t f Hd' Hin. cbn [_callbacks next_id] in *.
    destruct (Hwf k' d' t f Hd' Hin) as [Hlt Hk]. split; [lia | exact Hk].
Qed.

Lemma emit_loop_frame d (args : list Value) (kwargs : list (string * Value)) s :
  _callbacks (snd (emit_loop d args kwargs s)) = _callbacks s /\
  next_id (snd (emit_loop d args kwargs s)) = next_id s.
Proof.
  revert s. induction d as [|[t fn] d IH]; intros s; [split; reflexivity|].
  cbn [emit_loop]. unfold call_soon. destruct kwargs as [|kw kwargs'].
  - destruct (IH {| _callbacks := _callbacks s;
                    _loop := _loop s ++ [{| sc_fn := fn; sc_args := args |}];
                    next_id := next_id s |}) as [E1 E2].
    rewrite E1, E2. split; reflexivity.
  - split; reflexivity.
Qed.

(** Without keyword arguments every registration gets its call, in the
    order of the dictionary. *)
Lemma emit_loop_positional d (args : list Value) s :
  emit_loop d args [] s =
  (Returned VNone,
   {| _callbacks := _callbacks s; _loop := _loop s ++ calls_of d args;
      next_id := next_id s |}).
Proof.
  revert s. induction d as [|[t fn] d IH]; intros s.
  - cbn. rewrite app_nil_r. destruct s; reflexivity.
  - cbn [emit_loop call_soon]. rewrite IH. cbn [_callbacks _loop next_id].
    unfold calls_of. cbn [fmap list_fmap snd]. rewrite <- app_assoc. reflexivity.
Qed.

Lemma init_lookup keys k d :
  _callbacks (init keys) !! k = Some d -> d = [].
Proof.
  unfold init. cbn [_callbacks]. induction keys as [|k0 keys IH]; cbn [foldr].
  - rewrite lookup_empty. discriminate.
  - intros Hd. apply lookup_insert_Some in Hd as [[_ <-]|[_ Hd]];
      [reflexivity | exact (IH Hd)].
Qed.

(** Every state a [CallbacksWithToken] reaches keeps its tokens in order:
    each registered token is filed under the key it carries and was made
    before the next token will be. This holds at construction and is kept
    by [add_callback], [remove_callback] and [emit], whether they return or
    raise. *)
Theorem tokens_allocated_invariant :
  (forall keys, tokens_allocated (init keys)) /\
  (forall s k (fn : Callbacks.Callable),
     tokens_allocated s -> tokens_allocated (snd (add_callback k fn s))) /\
  (forall s token,
     tokens_allocated s -> tokens_allocated (snd (remove_callback token s))) /\
  (forall s k args kwargs,
     tokens_allocated s -> tokens_allocated (snd (emit k args kwargs s))).
Proof.
  split; [|split; [|split]].
  - intros keys k d t fn Hd Hin. apply init_lookup in Hd. subst d. inversion Hin.
  - intros s k fn. apply add_callback_allocated.
  - intros s token Hwf. unfold remove_callback.
    destruct (_callbacks s !! key token) as [d|] eqn:Hd; [|exact Hwf].
    destruct (dict_pop token d) as [[fn d']|] eqn:Hpop; [|exact Hwf].
    cbn [snd]. intros k' d0 t f Hd0 Hin. cbn [_callbacks next_id] in *.
    apply lookup_insert_Some in Hd0 as [[<- <-]|[_ Hd0]].
    + apply (Hwf (key token) d t f Hd). eapply dict_pop_subset; eassumption.
    + apply (Hwf k' d0 t f Hd0 Hin).
  - intros s k args kwargs Hwf. unfold emit.
    destruct (_callbacks s !! k) as [d|]; [|exact Hwf].
    destruct (emit_loop_frame d args kwargs s) as [E1 E2].
    intros k' d' t f Hd' Hin. rewrite E1 in Hd'. rewrite E2.
    apply (Hwf k' d' t f Hd' Hin).
Qed.

(** A function registered twice under one key is registered twice: the two
    tokens differ, although they carry the same key, and [emit] with
    positional arguments hands the loop two calls of the function, after
    those of the earlier registrations. [remove_callback] with the first
    token takes one registration away and leaves the other: [emit] then
    hands the loop one call of the function. [emit] with a keyword argument
    raises the [TypeError] of [call_soon] and schedules nothing. *)
Theorem same_function_registered_twice s k d (fn : Callbacks.Callable)
    (args : list Value) :
  tokens_allocated s ->
  _callbacks s !! k = Some d ->
  let t1 := {| token_id := next_id s; key := k |} in
  let t2 := {| token_id := S (next_id s); key := k |} in
  let s1 := snd (add_callback k fn s) in
  let s2 := snd (add_callback k fn s1) in
  let s3 := snd (remove_callback t1 s2) in
  let call := {| sc_fn := fn; sc_args := args |} in
  fst (add_callback k fn s) = Returned t1 /\
  fst (add_callback k fn s1) = Returned t2 /\
  token_eqb t1 t2 = false /\
  key t1 = key t2 /\
  emit k args [] s2 =
    (Returned VNone,
     {| _callbacks := _callbacks s2;
        _loop := _loop s ++ calls_of d args ++ [call; call];
        next_id := next_id s2 |}) /\
  fst (remove_callback t1 s2) = Returned VNone /\
  _loop (snd (emit k args [] s3)) = _loop s ++ calls_of d args ++ [call] /\
  (forall kw kwargs,
     emit k args (kw :: kwargs) s2 =
       (Raised (TypeError "call_soon() got an unexpected keyword argument"), s2)).
Proof.
  intros Hwf Hd. cbv zeta.
  pose proof (add_callback_allocated s k fn Hwf) as Hwf1.
  rewrite (add_callback_eq s k d fn Hwf Hd) in *. cbn [fst snd] in *.
  assert (Hd1 : _callbacks
                  {| _callbacks :=
                       <[k := d ++ [({| token_id := next_id s; key := k |}, fn)]]>
                         (_callbacks s);
                     _loop := _loop s; next_id := S (next_id s) |} !! k =
                Some (d ++ [({| token_id := next_id s; key := k |}, fn)]))
    by (cbn [_callbacks]; apply lookup_insert_eq).
  rewrite (add_callback_eq _ k _ fn Hwf1 Hd1). cbn [fst snd next_id _callbacks _loop].
  rewrite insert_insert_eq, <- app_assoc. cbn [app].
  split; [reflexivity|]. split; [reflexivity|].
  split; [unfold token_eqb; cbn; apply Nat.eqb_neq; lia|].
  split; [reflexivity|]. split; [|split; [|split]].
  - unfold emit. cbn [_callbacks]. rewrite lookup_insert_eq, emit_loop_positional.
    cbn [_callbacks _loop next_id]. unfold calls_of. rewrite fmap_app. reflexivity.
  - pose proof (allocated_new s k d Hwf Hd k) as Hnew.
    unfold remove_callback. cbn [key _callbacks _loop next_id].
    rewrite lookup_insert_eq, (dict_pop_middle _ fn d _ Hnew). reflexivity.
  - pose proof (allocated_new s k d Hwf Hd k) as Hnew.
    unfold remove_callback. cbn [key _callbacks _loop next_id].
    rewrite lookup_insert_eq, (dict_pop_middle _ fn d _ Hnew). cbn [snd].
    unfold emit. cbn [_callbacks]. rewrite lookup_insert_eq, emit_loop_positional.
    cbn [snd _loop]. unfold calls_of. rewrite fmap_app. reflexivity.
  - intros kw kwargs. unfold emit. cbn [_callbacks]. rewrite lookup_insert_eq.
    destruct d as [|[t f] d]; reflexivity.
Qed.

Lemma same_function_registered_twice_witness :
  let fn := Callbacks.mock "again" VNone in
  let s2 := snd (add_callback "closed" fn (snd (add_callback "closed" fn one_callback))) in
  _loop (snd (emit "closed" [VInt 1] [] s2)) =
    [{| sc_fn := fn; sc_args := [VInt 1] |}; {| sc_fn := fn; sc_args := [VInt 1] |}] /\
  fst (remove_callback {| token_id := 1; key := "closed" |} s2) = Returned VNone /\
  fst (emit "closed" [VInt 1] [("delay", VInt 2)] s2) =
    Raised (TypeError "call_soon() got an unexpected keyword argument").
Proof.
  cbv zeta.
  destruct (same_function_registered_twice one_callback "closed" []
              (Callbacks.mock "again" VNone) [VInt 1])
    as (_ & _ & _ & _ & E & R & _ & Hkw).
  - intros k d t fn Hd Hin. unfold one_callback in Hd. cbn [_callbacks] in Hd.
    apply lookup_insert_Some in Hd as [[<- <-]|[_ Hd]].
    + apply list_elem_of_singleton in Hin. inversion Hin; subst.
      split; [cbn; lia | reflexivity].
    + apply lookup_insert_Some in Hd as [[<- <-]|[_ Hd]];
        [inversion Hin | rewrite lookup_empty in Hd; discriminate Hd].
  - vm_compute. reflexivity.
  - split; [rewrite E; reflexivity|]. split; [exact R|].
    rewrite (Hkw ("delay", VInt 2) []). reflexivity.
Defined.

End TokenCallbacksFacts.

(** * Properties of the capability cache and of the service *)

Module EntityCapsFacts.
Import Py EntityCaps.

Section Facts.

Context {K : Type} `{CapsKey K}.
Context (read_single_xso : string -> Result InfoQuery).
Context (events_to_sax : list SaxEvent -> Result string).
Context (quote : string -> string).
Context (calculate_keys : Impl -> InfoQuery -> list K).
Context (extract_keys : Impl -> Presence -> list K).

Implicit Types (w : World (K := K)) (key : K) (fut : FutId).

(** *** Futures *)

Lemma new_future_fresh w : futures w !! fst (new_future w) = None.
Proof.
  unfold new_future. simpl. apply not_elem_of_dom. apply is_fresh.
Qed.

Lemma get_future_insert w fut f m' :
  get_future (set_futures (<[fut := f]> m') w) fut = f.
Proof. unfold get_future. simpl. rewrite lookup_insert_eq. reflexivity. Qed.

Lemma future_state_insert w fut f m' :
  future_state (set_futures (<[fut := f]> m') w) fut = fut_state f.
Proof. unfold future_state. rewrite get_future_insert. reflexivity. Qed.

Lemma future_state_set_ready w fut r :
  future_state (set_ready r w) fut = future_state w fut.
Proof. reflexivity. Qed.

(** [create_query_future], in one step. *)
Lemma create_query_future_eq key w :
  create_query_future key w =
  (fresh (dom (futures w)),
   set_lookup_cache (<[key := fresh (dom (futures w))]> (_lookup_cache (cache w)))
     (set_futures
        (<[fresh (dom (futures w)) :=
             {| fut_state := Pending; fut_callbacks := [EraseFuture key] |}]>
           (futures w)) w)).
Proof.
  unfold create_query_future, new_future, add_done_callback.
  rewrite get_future_insert. cbn [fut_state fut_callbacks app].
  unfold set_futures, set_lookup_cache.
  cbn [cache futures ready executor fs _lookup_cache _memory_overlay
       _system_db_path _user_db_path].
  rewrite insert_insert_eq. reflexivity.
Qed.

Lemma create_query_future_future key w :
  get_future (snd (create_query_future key w)) (fst (create_query_future key w)) =
  {| fut_state := Pending; fut_callbacks := [EraseFuture key] |}.
Proof.
  rewrite create_query_future_eq. cbn [fst snd].
  unfold get_future. cbn. rewrite lookup_insert_eq. reflexivity.
Qed.

Lemma create_query_future_lookup_cache key w :
  _lookup_cache (cache (snd (create_query_future key w))) =
  <[key := fst (create_query_future key w)]> (_lookup_cache (cache w)).
Proof. rewrite create_query_future_eq. reflexivity. Qed.

Lemma create_query_future_pending key w :
  future_state (snd (create_query_future key w)) (fst (create_query_future key w))
  = Pending.
Proof. unfold future_state. rewrite create_query_future_future. reflexivity. Qed.

(** What [create_query_future] leaves alone. *)
Lemma create_query_future_frame key w :
  let w1 := snd (create_query_future key w) in
  _memory_overlay (cache w1) = _memory_overlay (cache w) /\
  _system_db_path (cache w1) = _system_db_path (cache w) /\
  _user_db_path (cache w1) = _user_db_path (cache w) /\
  ready w1 = ready w /\ executor w1 = executor w /\ fs w1 = fs w.
Proof. rewrite create_query_future_eq. repeat split; reflexivity. Qed.

Lemma settle_pending fut st w cbs :
  get_future w fut = {| fut_state := Pending; fut_callbacks := cbs |} ->
  settle fut st w =
  (Returned tt,
   set_ready (ready w ++ map (fun cb => (cb, fut)) cbs)
     (set_futures (<[fut := {| fut_state := st; fut_callbacks := [] |}]> (futures w)) w)).
Proof. intros E. unfold settle. rewrite E. reflexivity. Qed.

Lemma settle_done fut st w :
  future_state w fut <> Pending ->
  settle fut st w = (Raised InvalidStateError, w).
Proof.
  unfold future_state, settle. intros Hst.
  destruct (fut_state (get_future w fut)); [congruence | reflexivity | reflexivity].
Qed.

Lemma erase_future_registered key fut w :
  _lookup_cache (cache w) !! key = Some fut ->
  _erase_future key fut w =
  set_lookup_cache (delete key (_lookup_cache (cache w))) w.
Proof.
  intros E. unfold _erase_future. rewrite E.
  destruct (decide (fut = fut)); [reflexivity | congruence].
Qed.

Lemma erase_future_stale key fut newer w :
  _lookup_cache (cache w) !! key = Some newer ->
  newer <> fut ->
  _erase_future key fut w = w.
Proof.
  intros E Hne. unfold _erase_future. rewrite E.
  destruct (decide (newer = fut)); [congruence | reflexivity].
Qed.

Lemma erase_future_unregistered key fut w :
  _lookup_cache (cache w) !! key = None ->
  _erase_future key fut w = w.
Proof. intros E. unfold _erase_future. rewrite E. reflexivity. Qed.

(** C7: [create_query_future] registers a future that did not exist before
    as the one future of its key, replacing what was registered and
    touching no other key. Settling that future hands the loop exactly one
    call of [_erase_future], for this key and this future, and it cannot be
    settled a second time. When the loop makes that call, the entry of the
    key is removed if it is this very future, and left alone if a newer
    future has been registered for the key since, or if there is none. *)
Theorem pending_future_registered_once_and_self_erasing key w :
  let fut := fst (create_query_future key w) in
  let w1 := snd (create_query_future key w) in
  futures w !! fut = None /\
  _lookup_cache (cache w1) !! key = Some fut /\
  (forall key', key' <> key ->
     _lookup_cache (cache w1) !! key' = _lookup_cache (cache w) !! key') /\
  get_future w1 fut = {| fut_state := Pending; fut_callbacks := [EraseFuture key] |} /\
  (forall st, st <> Pending ->
     let w2 := snd (settle fut st w1) in
     fst (settle fut st w1) = Returned tt /\
     future_state w2 fut = st /\
     ready w2 = ready w1 ++ [(EraseFuture key, fut)] /\
     _lookup_cache (cache w2) = _lookup_cache (cache w1) /\
     (forall st', settle fut st' w2 = (Raised InvalidStateError, w2))) /\
  (forall w', _lookup_cache (cache w') !! key = Some fut ->
     _lookup_cache (cache (run_handle (EraseFuture key, fut) w')) !! key = None /\
     forall key', key' <> key ->
       _lookup_cache (cache (run_handle (EraseFuture key, fut) w')) !! key' =
       _lookup_cache (cache w') !! key') /\
  (forall w' newer, _lookup_cache (cache w') !! key = Some newer -> newer <> fut ->
     run_handle (EraseFuture key, fut) w' = w') /\
  (forall w', _lookup_cache (cache w') !! key = None ->
     run_handle (EraseFuture key, fut) w' = w').
Proof.
  cbv zeta.
  pose proof (create_query_future_future key w) as Hfut.
  pose proof (create_query_future_lookup_cache key w) as Hlc.
  split; [|split; [|split; [|split; [|split; [|split; [|split]]]]]].
  - rewrite create_query_future_eq. apply (new_future_fresh w).
  - rewrite Hlc. apply lookup_insert_eq.
  - intros key' Hne. rewrite Hlc. apply lookup_insert_ne. congruence.
  - exact Hfut.
  - intros st Hst. rewrite (settle_pending _ st _ _ Hfut). cbn [fst snd map].
    assert (Hdone : future_state
              (set_ready (ready (snd (create_query_future key w)) ++
                          [(EraseFuture key, fst (create_query_future key w))])
                 (set_futures
                    (<[fst (create_query_future key w) :=
                         {| fut_state := st; fut_callbacks := [] |}]>
                       (futures (snd (create_query_future key w))))
                    (snd (create_query_future key w))))
              (fst (create_query_future key w)) = st).
    { rewrite future_state_set_ready, future_state_insert. reflexivity. }
    split; [reflexivity|]. split; [exact Hdone|].
    split; [reflexivity|]. split; [reflexivity|].
    intros st'. apply settle_done. rewrite Hdone. exact Hst.
  - intros w' E. unfold run_handle. rewrite (erase_future_registered _ _ _ E).
    unfold set_lookup_cache. cbn [cache _lookup_cache].
    split; [apply lookup_delete_eq|].
    intros key' Hne. apply lookup_delete_ne. congruence.
  - intros w' newer E Hne. unfold run_handle.
    eapply erase_future_stale; eassumption.
  - intros w' E. unfold run_handle. apply erase_future_unregistered. exact E.
Qed.

(** *** The store tiers *)

Lemma open_rb_raises_OSError fs (p : Path) e :
  open_rb fs p = Raised e -> exists msg, e = OSError msg.
Proof.
  unfold open_rb. destruct (files fs !! p) as [[|[] content]|]; intros E;
    inversion E; eauto.
Qed.

(** The user tier of [lookup_in_database], case by case. *)
Lemma lookup_in_user_db_cases (c : Cache (K := K)) fs key opened :
  (store_misses (_user_db_path c) fs key /\
   lookup_in_user_db read_single_xso c fs (path key) opened =
     (opened ++ store_file (_user_db_path c) key, NotFound)) \/
  (exists p content,
     _user_db_path c = Some p /\
     open_rb fs (p ++ path key) = Returned content /\
     lookup_in_user_db read_single_xso c fs (path key) opened =
       (opened ++ [p ++ path key], UserHit (read_single_xso content))).
Proof.
  unfold lookup_in_user_db, store_misses, store_file.
  destruct (_user_db_path c) as [p|]; [|left; rewrite app_nil_r; split; [exact I | reflexivity]].
  destruct (open_rb fs (p ++ path key)) as [content|e] eqn:Eo.
  - right. exists p, content. split; [reflexivity|].
    split; first [exact Eo | reflexivity].
  - destruct (open_rb_raises_OSError _ _ _ Eo) as [msg ->].
    left. split; [exists msg; first [exact Eo | reflexivity] | reflexivity].
Qed.

Lemma store_misses_not_open (db_path : option Path) fs key p content :
  store_misses db_path fs key -> db_path = Some p ->
  open_rb fs (p ++ path key) = Returned content -> False.
Proof.
  intros Hmiss -> Ho. destruct Hmiss as [msg Hmsg]. rewrite Ho in Hmsg. discriminate.
Qed.

(** C8, as the code has it: [lookup_in_database] asks the memory overlay,
    then the system store, then the user store. A key of the memory overlay
    is returned with no file opened, and [lookup] then returns it without
    being suspended. A store that is not configured, or whose file cannot be
    opened, is a miss, and the next tier is asked. A store whose file opens
    is the answer, with no later tier asked: what [read_single_xso] makes of
    the file, the entry or the error it raises. The [KeyError] of
    [lookup_in_database] itself is raised exactly when the three tiers
    miss. Where every file that opens can be read, this is the lookup of
    the specification. *)
Theorem lookup_in_database_tier_order (c : Cache (K := K)) (fs : FileSystem) key :
  (forall entry, _memory_overlay c !! key = Some entry ->
     lookup_in_database read_single_xso c fs key = ([], MemoryHit entry) /\
     forall fuel w, cache w = c ->
       lookup read_single_xso fuel key w = Return entry w) /\
  (forall p content,
     _memory_overlay c !! key = None ->
     _system_db_path c = Some p ->
     open_rb fs (p ++ path key) = Returned content ->
     lookup_in_database read_single_xso c fs key =
       ([p ++ path key], SystemHit (read_single_xso content))) /\
  (forall p content,
     _memory_overlay c !! key = None ->
     store_misses (_system_db_path c) fs key ->
     _user_db_path c = Some p ->
     open_rb fs (p ++ path key) = Returned content ->
     lookup_in_database read_single_xso c fs key =
       (store_file (_system_db_path c) key ++ [p ++ path key],
        UserHit (read_single_xso content))) /\
  (snd (lookup_in_database read_single_xso c fs key) = NotFound <->
     _memory_overlay c !! key = None /\
     store_misses (_system_db_path c) fs key /\
     store_misses (_user_db_path c) fs key) /\
  ((forall p content,
      open_rb fs (p ++ path key) = Returned content ->
      exists entry, read_single_xso content = Returned entry) ->
   db_result (snd (lookup_in_database read_single_xso c fs key)) =
     lookup_in_store read_single_xso c fs key).
Proof.
  split; [|split; [|split; [|split]]].
  - intros entry Hm. unfold lookup_in_database. rewrite Hm.
    split; [reflexivity|].
    intros fuel w Hc. unfold lookup, lookup_in_database. rewrite Hc, Hm. reflexivity.
  - intros p content Hm Hs Ho. unfold lookup_in_database.
    rewrite Hm, Hs, Ho. reflexivity.
  - intros p content Hm Hsys Hu Ho. unfold lookup_in_database. rewrite Hm.
    destruct (lookup_in_user_db_cases c fs key (store_file (_system_db_path c) key))
      as [[Hmiss _]|(p' & content' & Hu' & Ho' & E)].
    { exfalso. eapply store_misses_not_open; eassumption. }
    rewrite Hu in Hu'. inversion Hu'; subst p'. rewrite Ho in Ho'.
    inversion Ho'; subst content'.
    unfold store_misses, store_file in *.
    destruct (_system_db_path c) as [ps|]; [|exact E].
    destruct Hsys as [msg Hmsg]. rewrite Hmsg. exact E.
  - unfold lookup_in_database.
    destruct (_memory_overlay c !! key) as [entry|];
      [split; [discriminate | intros [? _]; discriminate]|].
    destruct (_system_db_path c) as [ps|] eqn:Es.
    + destruct (open_rb fs (ps ++ path key)) as [content|e] eqn:Eo.
      * cbn [snd]. split; [discriminate|].
        intros (_ & [msg Hmsg] & _). rewrite ?Eo in Hmsg. discriminate Hmsg.
      * destruct (open_rb_raises_OSError _ _ _ Eo) as [msg ->].
        destruct (lookup_in_user_db_cases c fs key [ps ++ path key])
          as [[Hmiss E]|(p' & content' & Hu' & Ho' & E)]; rewrite E; cbn [snd].
        -- split; [intros _|reflexivity].
           split; [reflexivity|].
           split; [exists msg; first [exact Eo | reflexivity] | exact Hmiss].
        -- split; [discriminate|]. intros (_ & _ & Hmiss). exfalso.
           eapply store_misses_not_open; eassumption.
    + destruct (lookup_in_user_db_cases c fs key [])
        as [[Hmiss E]|(p' & content' & Hu' & Ho' & E)]; rewrite E; cbn [snd].
      * split; [intros _|reflexivity]. split; [reflexivity|].
        split; [exact I | exact Hmiss].
      * split; [discriminate|]. intros (_ & _ & Hmiss). exfalso.
        eapply store_misses_not_open; eassumption.
  - intros Hread. unfold lookup_in_database, lookup_in_store, tier_memory.
    destruct (_memory_overlay c !! key) as [entry|]; [reflexivity|].
    cbn [first_hit].
    assert (Huser : forall opened,
              db_result (snd (lookup_in_user_db read_single_xso c fs (path key) opened)) =
              match tier_store read_single_xso (_user_db_path c) fs key with
              | Some entry => Returned entry
              | None => Raised KeyError
              end).
    { intros opened. unfold lookup_in_user_db, tier_store.
      destruct (_user_db_path c) as [pu|]; [|reflexivity].
      destruct (open_rb fs (pu ++ path key)) as [content|e] eqn:Eo.
      - destruct (Hread pu content Eo) as [entry Hentry]. cbn [snd db_result].
        rewrite Hentry. reflexivity.
      - destruct (open_rb_raises_OSError _ _ _ Eo) as [msg ->]. reflexivity. }
    unfold tier_store at 1.
    destruct (_system_db_path c) as [ps|]; [|cbn [first_hit]; apply Huser].
    destruct (open_rb fs (ps ++ path key)) as [content|e] eqn:Eo.
    + destruct (Hread ps content Eo) as [entry Hentry]. cbn [snd db_result].
      rewrite Hentry. reflexivity.
    + destruct (open_rb_raises_OSError _ _ _ Eo) as [msg ->]. cbn [first_hit].
      apply Huser.
Qed.

(** *** Waiting in [Cache.lookup] *)

(** One iteration of the loop of [lookup] on a registered pending future. *)
Lemma lookup_loop_pending fuel key w fut :
  _lookup_cache (cache w) !! key = Some fut ->
  future_state w fut = Pending ->
  lookup_loop (S fuel) key w =
  YieldFuture fut w
    (fun w' =>
       try_except (read_future fut w')
         (fun e => if is_ValueError e then Some (lookup_loop fuel key) else None)
         (fun result w'' => Return result w'')).
Proof.
  intros Hreg Hpend. cbn [lookup_loop]. rewrite Hreg.
  unfold yield_from. rewrite Hpend. reflexivity.
Qed.

Lemma lookup_loop_unregistered fuel key w :
  _lookup_cache (cache w) !! key = None ->
  lookup_loop (S fuel) key w = Raise KeyError w.
Proof. intros Hreg. cbn [lookup_loop]. rewrite Hreg. reflexivity. Qed.

Lemma lookup_not_found fuel key w :
  snd (lookup_in_database read_single_xso (cache w) (fs w) key) = NotFound ->
  lookup read_single_xso fuel key w = lookup_loop fuel key w.
Proof. intros Hdb. unfold lookup. rewrite Hdb. reflexivity. Qed.



(** *** [lookup_info] without keys *)

(** C10: on the empty list of keys the loop of [lookup_info] looks nothing
    up and [keys[0]] raises [IndexError], whatever the world; and
    [handle_inbound_presence] starts [lookup_info] only on a list of keys
    that is not empty. *)
Theorem lookup_info_empty_keys_IndexError :
  (forall fuel jid w,
     lookup_info read_single_xso fuel jid [] w = Raise IndexError w) /\
  (forall (svc : Service (K := K)) presence,
     let svc' := snd (handle_inbound_presence extract_keys svc presence) in
     tasks svc' = tasks svc \/
     exists keys, keys <> [] /\ tasks svc' = tasks svc ++ [(from_ presence, keys)]).
Proof.
  split.
  - intros fuel jid w. reflexivity.
  - intros svc presence. cbv zeta. unfold handle_inbound_presence.
    destruct ((if xep115_support svc
               then (if xep390_support svc
                     then [] ++ extract_keys Xep390 presence else []) ++
                    extract_keys Xep115 presence
               else if xep390_support svc
                    then [] ++ extract_keys Xep390 presence else [])) as [|k ks] eqn:E.
    + left. reflexivity.
    + right. exists (k :: ks). split; [discriminate | reflexivity].
Qed.

(** *** [update_hash] *)

Lemma keys_of_spec (d : gmap Impl (gset K)) key :
  key ∈ keys_of d <-> exists impl group, d !! impl = Some group /\ key ∈ group.
Proof.
  unfold keys_of. rewrite list_elem_of_join. split.
  - intros (l & Hin & Hl). apply list_elem_of_fmap in Hl as ([impl group] & -> & Hm).
    apply elem_of_map_to_list in Hm. apply elem_of_elements in Hin.
    exists impl, group. split; assumption.
  - intros (impl & group & Hm & Hin).
    exists (elements group). split; [apply elem_of_elements; exact Hin|].
    apply list_elem_of_fmap. exists (impl, group).
    split; [reflexivity | apply elem_of_map_to_list; exact Hm].
Qed.

Lemma unmount_loop (svc : Service (K := K)) keys :
  let svc' := foldl (fun s key => unmount_node s (node key)) svc keys in
  effects svc' = effects svc ++ ((fun key => UnmountNode (node key)) <$> keys) /\
  __current_keys svc' = __current_keys svc /\
  xep115_support svc' = xep115_support svc /\
  xep390_support svc' = xep390_support svc /\
  server_info (disco_server svc') = server_info (disco_server svc) /\
  tasks svc' = tasks svc.
Proof.
  revert svc. induction keys as [|key keys IH]; intros svc; cbn [foldl fmap list_fmap].
  - rewrite app_nil_r. repeat split; reflexivity.
  - destruct (IH (unmount_node svc (node key))) as (E1 & E2 & E3 & E4 & E5 & E6).
    cbv zeta in *. rewrite E1, E2, E3, E4, E5, E6. cbn.
    rewrite <- app_assoc. repeat split; reflexivity.
Qed.

Lemma mount_loop info (svc : Service (K := K)) keys :
  let svc' := foldl (fun s key => mount_node info s (node key)) svc keys in
  effects svc' = effects svc ++ ((fun key => MountNode (node key) info) <$> keys) /\
  __current_keys svc' = __current_keys svc /\
  tasks svc' = tasks svc.
Proof.
  revert svc. induction keys as [|key keys IH]; intros svc; cbn [foldl fmap list_fmap].
  - rewrite app_nil_r. repeat split; reflexivity.
  - destruct (IH (mount_node info svc (node key))) as (E1 & E2 & E3).
    cbv zeta in *. rewrite E1, E2, E3. cbn.
    rewrite <- app_assoc. repeat split; reflexivity.
Qed.

Lemma ver_changed_count_app l1 l2 :
  ver_changed_count (l1 ++ l2) = ver_changed_count l1 + ver_changed_count l2.
Proof. unfold ver_changed_count. rewrite List.filter_app, length_app. reflexivity. Qed.

Lemma ver_changed_count_unmounts (keys : list K) :
  ver_changed_count ((fun key => UnmountNode (node key)) <$> keys) = 0.
Proof. induction keys as [|k ks IH]; [reflexivity | exact IH]. Qed.

Lemma ver_changed_count_mounts info (keys : list K) :
  ver_changed_count ((fun key => MountNode (node key) info) <$> keys) = 0.
Proof. induction keys as [|k ks IH]; [reflexivity | exact IH]. Qed.

(** An unchanged key set: [update_hash] does nothing. *)
Lemma update_hash_unchanged (svc : Service (K := K)) :
  __current_keys svc = new_keys_of calculate_keys svc ->
  update_hash calculate_keys svc = svc.
Proof.
  intros E. unfold update_hash.
  destruct (decide (__current_keys svc = new_keys_of calculate_keys svc));
    [reflexivity | contradiction].
Qed.

(** C2, as the code has it: when the new key set differs from the current
    one, [update_hash] unmounts the node of every key of the old set, then
    mounts the node of every key of the new set, then fires
    [on_ver_changed], once. A key that is in both sets is therefore
    unmounted and mounted again. *)
Theorem update_hash_remounts_all_keys (svc : Service (K := K)) :
  __current_keys svc <> new_keys_of calculate_keys svc ->
  let svc' := update_hash calculate_keys svc in
  let info := server_info (disco_server svc) in
  exists added,
    effects svc' = effects svc ++ added /\
    added =
      ((fun key => UnmountNode (node key)) <$> keys_of (__current_keys svc)) ++
      ((fun key => MountNode (node key) info) <$>
         keys_of (new_keys_of calculate_keys svc)) ++
      [OnVerChanged] /\
    ver_changed_count added = 1 /\
    __current_keys svc' = new_keys_of calculate_keys svc /\
    (forall impl group key,
       __current_keys svc !! impl = Some group -> key ∈ group ->
       UnmountNode (node key) ∈ added) /\
    (forall impl group key,
       new_keys_of calculate_keys svc !! impl = Some group -> key ∈ group ->
       MountNode (node key) info ∈ added).
Proof.
  intros Hne. cbv zeta. unfold update_hash.
  destruct (decide (__current_keys svc = new_keys_of calculate_keys svc));
    [contradiction|].
  eexists. split; [|split; [reflexivity|]].
  - cbn [on_ver_changed effects].
    destruct (mount_loop (server_info (disco_server svc))
                (set_current_keys (new_keys_of calculate_keys svc)
                   (foldl (fun s key => unmount_node s (node key)) svc
                      (keys_of (__current_keys svc))))
                (keys_of (new_keys_of calculate_keys svc))) as (E1 & _ & _).
    cbv zeta in E1. rewrite E1. cbn [set_current_keys effects].
    destruct (unmount_loop svc (keys_of (__current_keys svc))) as (E2 & _).
    cbv zeta in E2. rewrite E2. rewrite <- !app_assoc. reflexivity.
  - split; [|split; [|split]].
    + rewrite !ver_changed_count_app, ver_changed_count_unmounts,
        ver_changed_count_mounts. reflexivity.
    + cbn [on_ver_changed __current_keys].
      destruct (mount_loop (server_info (disco_server svc))
                  (set_current_keys (new_keys_of calculate_keys svc)
                     (foldl (fun s key => unmount_node s (node key)) svc
                        (keys_of (__current_keys svc))))
                  (keys_of (new_keys_of calculate_keys svc))) as (_ & E1 & _).
      cbv zeta in E1. rewrite E1. reflexivity.
    + intros impl group key Hm Hin. apply elem_of_app. left.
      apply (list_elem_of_fmap_2 (fun key => UnmountNode (node key))).
      apply keys_of_spec. exists impl, group. split; assumption.
    + intros impl group key Hm Hin. apply elem_of_app. right.
      apply elem_of_app. left.
      apply (list_elem_of_fmap_2
               (fun key => MountNode (node key) (server_info (disco_server svc)))).
      apply keys_of_spec. exists impl, group. split; assumption.
Qed.

(** *** [lookup_info] and [query_and_cache] *)

Lemma lookup_miss fuel key w :
  snd (lookup_in_database read_single_xso (cache w) (fs w) key) = NotFound ->
  _lookup_cache (cache w) !! key = None ->
  lookup read_single_xso (S fuel) key w = Raise KeyError w.
Proof.
  intros Hdb Hreg. rewrite lookup_not_found by exact Hdb.
  apply lookup_loop_unregistered. exact Hreg.
Qed.

(** When every key misses, the loop of [lookup_info] falls through. *)
Lemma lookup_info_loop_all_miss fuel keys rest w :
  (forall key, key ∈ keys ->
     snd (lookup_in_database read_single_xso (cache w) (fs w) key) = NotFound /\
     _lookup_cache (cache w) !! key = None) ->
  lookup_info_loop read_single_xso (S fuel) keys rest w = rest w.
Proof.
  induction keys as [|key keys IH]; intros Hmiss; [reflexivity|].
  cbn [lookup_info_loop].
  destruct (Hmiss key) as [Hdb Hreg]; [left|].
  rewrite (lookup_miss _ _ _ Hdb Hreg). cbn [try_except is_KeyError].
  apply IH. intros key' Hin. apply Hmiss. right. exact Hin.
Qed.

(** [query_and_cache] is suspended in [query_info]. *)
Lemma query_and_cache_suspended jid key fut w :
  query_and_cache jid key fut w =
  YieldQueryInfo jid (node key) true w
    (fun answer w' => resume_query (query_and_cache jid key fut w) answer w').
Proof. reflexivity. Qed.

(** What [query_and_cache] does with the answer. *)
Lemma query_and_cache_resumed jid key fut w answer w' :
  resume_query (query_and_cache jid key fut w) answer w' =
  match answer with
  | Raised e => Raise e w'
  | Returned data =>
      if verify key data
      then match set_result fut data (add_cache_entry key data w') with
           | (Returned _, w'') => Return data w''
           | (Raised e, w'') =>
               if is_ValueError e
               then match set_exception fut e w'' with
                    | (Returned _, w3) => Return data w3
                    | (Raised e', w3) => Raise e' w3
                    end
               else Raise e w''
           end
      else match set_exception fut (ValueError "hash mismatch") w' with
           | (Returned _, w'') => Return data w''
           | (Raised e, w'') => Raise e w''
           end
  end.
Proof.
  unfold query_and_cache, bind, query_info. cbn [try_except resume_query].
  destruct answer as [data|e]; cbn [try_except]; [|reflexivity].
  destruct (verify key data); cbn [try_except is_ValueError].
  - unfold effect, sync, bind. cbn [try_except].
    destruct (set_result fut data (add_cache_entry key data w')) as [[u|e] w''];
      cbn [try_except]; [reflexivity|].
    destruct (is_ValueError e); [|reflexivity].
    unfold sync. destruct (set_exception fut e w'') as [[u|e'] w3]; reflexivity.
  - unfold sync.
    destruct (set_exception fut (ValueError "hash mismatch") w') as [[u|e] w''];
      reflexivity.
Qed.

(** When the query itself fails, [query_and_cache] raises the error of the
    query and does nothing else: the world is the one it was resumed on. *)
Lemma query_and_cache_query_error jid key fut w e w' :
  resume_query (query_and_cache jid key fut w) (Raised e) w' = Raise e w'.
Proof. reflexivity. Qed.

(** What [add_cache_entry] does. *)
Lemma add_cache_entry_effect key entry w :
  let w' := add_cache_entry key entry w in
  _memory_overlay (cache w') = <[key := entry]> (_memory_overlay (cache w)) /\
  _lookup_cache (cache w') = _lookup_cache (cache w) /\
  futures w' = futures w /\ ready w' = ready w /\ fs w' = fs w /\
  executor w' =
    executor w ++
    match _user_db_path (cache w) with
    | Some user_db_path =>
        [CallWriteback [ArgPath (user_db_path ++ path key);
                        ArgEvents (captured_events entry)]]
    | None => []
    end.
Proof.
  cbv zeta. unfold add_cache_entry.
  assert (Hcopy : copy_copy entry = entry) by (destruct entry; reflexivity).
  rewrite Hcopy.
  cbn [set_memory_overlay cache _user_db_path].
  destruct (_user_db_path (cache w)); cbn; rewrite ?app_nil_r;
    repeat split; reflexivity.
Qed.

(** C1, as the code has it: when every candidate key misses (no store tier
    has it, no future is pending for it), [lookup_info] registers a future
    for the first key and queries the peer for the node of that key,
    fresh. When the answer does not verify against the key, the future
    fails with the [ValueError] of the mismatch and nothing is added to the
    cache (no entry in the memory overlay, no write handed to the executor);
    [lookup_info] itself does not fail: it returns the answer of the peer. *)
Theorem lookup_info_verification_failure fuel jid first_key keys data w :
  (forall key, key ∈ first_key :: keys ->
     snd (lookup_in_database read_single_xso (cache w) (fs w) key) = NotFound /\
     _lookup_cache (cache w) !! key = None) ->
  verify first_key data = false ->
  let fut := fst (create_query_future first_key w) in
  let w1 := snd (create_query_future first_key w) in
  _lookup_cache (cache w1) !! first_key = Some fut /\
  future_state w1 fut = Pending /\
  exists k,
    lookup_info read_single_xso (S fuel) jid (first_key :: keys) w =
      YieldQueryInfo jid (node first_key) true w1 k /\
    forall w2, future_state w2 fut = Pending ->
      exists w3,
        k (Returned data) w2 = Return data w3 /\
        future_state w3 fut = FinishedException (ValueError "hash mismatch") /\
        _memory_overlay (cache w3) = _memory_overlay (cache w2) /\
        executor w3 = executor w2 /\
        fs w3 = fs w2.
Proof.
  intros Hmiss Hverify. cbv zeta.
  split; [rewrite create_query_future_lookup_cache; apply lookup_insert_eq|].
  split; [apply create_query_future_pending|].
  unfold lookup_info. rewrite (lookup_info_loop_all_miss _ _ _ _ Hmiss).
  destruct (create_query_future first_key w) as [fut w1] eqn:Ecreate.
  cbn [fst snd]. unfold bind at 1. rewrite query_and_cache_suspended.
  cbn [try_except]. eexists. split; [reflexivity|].
  intros w2 Hpend. cbn beta. rewrite query_and_cache_resumed, Hverify.
  unfold set_exception, settle. unfold future_state in Hpend. rewrite Hpend.
  cbn [try_except]. eexists. split; [reflexivity|].
  split; [|split; [|split]]; try reflexivity.
  rewrite future_state_set_ready, future_state_insert. reflexivity.
Qed.

End Facts.

(** *** The properties on concrete keys *)

Import Fixtures.

(** C1, as stated, fails: no tier has [key0], nothing is pending for it,
    the peer answers [bad_info], which does not verify against [key0]; the
    call of [lookup_info] does not fail, it returns [bad_info]. *)
Lemma lookup_info_returns_unverified_answer :
  let s := lookup_info Fixtures.read_single_xso 1 peer [key0] world0 in
  let w1 := default world0 (world_of s) in
  snd (lookup_in_database Fixtures.read_single_xso (cache world0) (fs world0) key0)
    = NotFound /\
  _lookup_cache (cache world0) !! key0 = None /\
  verify key0 bad_info = false /\
  outcome s = None /\
  outcome (resume_query s (Returned bad_info) w1) = Some (Returned bad_info).
Proof. vm_compute. repeat split; reflexivity. Qed.

(** C1 as amended, on the same run. *)
Lemma lookup_info_verification_failure_witness :
  _lookup_cache (cache (snd (create_query_future key0 world0))) !! key0 =
    Some (fst (create_query_future key0 world0)) /\
  future_state (snd (create_query_future key0 world0))
    (fst (create_query_future key0 world0)) = Pending /\
  exists k,
    lookup_info Fixtures.read_single_xso 1 peer [key0] world0 =
      YieldQueryInfo peer (node key0) true (snd (create_query_future key0 world0)) k /\
    forall w2, future_state w2 (fst (create_query_future key0 world0)) = Pending ->
      exists w3,
        k (Returned bad_info) w2 = Return bad_info w3 /\
        future_state w3 (fst (create_query_future key0 world0)) =
          FinishedException (ValueError "hash mismatch") /\
        _memory_overlay (cache w3) = _memory_overlay (cache w2) /\
        executor w3 = executor w2 /\
        fs w3 = fs w2.
Proof.
  apply (lookup_info_verification_failure Fixtures.read_single_xso 0 peer key0 []
           bad_info world0).
  - intros key Hin. apply list_elem_of_singleton in Hin. subst key.
    split; vm_compute; reflexivity.
  - vm_compute. reflexivity.
Defined.

(** C2, as stated, fails: with [xep390_support] switched off, the key of
    the first scheme is in the old key set and in the new one, the key sets
    differ, and [update_hash] unmounts the node of that key and mounts it
    again. *)
Lemma update_hash_remounts_kept_key :
  let kept := mkKey "sha-1" "a;b" "http://aioxmpp.zombofant.net/#sha-1a;b" in
  let dropped := mkKey "sha-256" "a;b" "http://aioxmpp.zombofant.net/#sha-256a;b" in
  keys_of (__current_keys service0) = [kept; dropped] /\
  keys_of (new_keys_of Fixtures.calculate_keys service0) = [kept] /\
  effects (update_hash Fixtures.calculate_keys service0) =
    [UnmountNode (node kept); UnmountNode (node dropped);
     MountNode (node kept) good_info; OnVerChanged].
Proof. vm_compute. repeat split; reflexivity. Qed.

(** C2 as amended, on the same service. *)
Lemma update_hash_remounts_all_keys_witness :
  exists added,
    effects (update_hash Fixtures.calculate_keys service0) = effects service0 ++ added /\
    added =
      ((fun key => UnmountNode (node key)) <$> keys_of (__current_keys service0)) ++
      ((fun key => MountNode (node key) (server_info (disco_server service0))) <$>
         keys_of (new_keys_of Fixtures.calculate_keys service0)) ++
      [OnVerChanged] /\
    ver_changed_count added = 1 /\
    __current_keys (update_hash Fixtures.calculate_keys service0) =
      new_keys_of Fixtures.calculate_keys service0 /\
    (forall impl group key,
       __current_keys service0 !! impl = Some group -> key ∈ group ->
       UnmountNode (node key) ∈ added) /\
    (forall impl group key,
       new_keys_of Fixtures.calculate_keys service0 !! impl = Some group ->
       key ∈ group ->
       MountNode (node key) (server_info (disco_server service0)) ∈ added).
Proof.
  apply (update_hash_remounts_all_keys Fixtures.calculate_keys service0).
  intros E. apply (f_equal keys_of) in E. vm_compute in E. discriminate E.
Defined.



(** C7 on two futures registered one after the other for [key0]: the first
    fails, the loop runs its callback, and the second is still registered. *)
Lemma stale_future_keeps_newer_registration :
  let f1 := fst (create_query_future key0 world0) in
  let w1 := snd (create_query_future key0 world0) in
  let f2 := fst (create_query_future key0 w1) in
  let w2 := snd (create_query_future key0 w1) in
  let w3 := snd (set_exception f1 (ValueError "hash mismatch") w2) in
  f1 <> f2 /\
  ready w3 = [(EraseFuture key0, f1)] /\
  _lookup_cache (cache (run_ready w3)) !! key0 = Some f2.
Proof.
  cbv zeta.
  destruct (pending_future_registered_once_and_self_erasing key0 world0)
    as (_ & _ & _ & _ & _ & _ & Hstale & _).
  split; [vm_compute; discriminate|].
  split; [vm_compute; reflexivity|].
  assert (Hready : ready (snd (set_exception (fst (create_query_future key0 world0))
                                 (ValueError "hash mismatch")
                                 (snd (create_query_future key0
                                         (snd (create_query_future key0 world0))))))
                   = [(EraseFuture key0, fst (create_query_future key0 world0))])
    by (vm_compute; reflexivity).
  unfold run_ready. rewrite Hready. cbn [foldl].
  rewrite (Hstale _ (fst (create_query_future key0
                            (snd (create_query_future key0 world0))))).
  - vm_compute. reflexivity.
  - vm_compute. reflexivity.
  - vm_compute. discriminate.
Defined.

(** C8, as stated, fails: the file of the system store for [key0] opens
    and cannot be read ([read_single_xso] raises on it), and the user store
    has a good file for [key0]. Taking the read failure for a miss, the
    lookup answers the entry of the user store; [lookup_in_database] opens
    the file of the system store only and raises the error of
    [read_single_xso]. *)
Lemma system_store_read_failure_is_not_a_miss :
  _memory_overlay (cache world_corrupt) !! key0 = None /\
  open_rb (fs world_corrupt) ["system"; "hashes"; "sha-1_a;b.xml"] =
    Returned EmptyString /\
  Fixtures.read_single_xso EmptyString = Raised (ValueError "no element") /\
  lookup_in_store Fixtures.read_single_xso (cache world_corrupt) (fs world_corrupt) key0 =
    Returned (info_of ["a;b"]) /\
  lookup_in_database Fixtures.read_single_xso (cache world_corrupt) (fs world_corrupt)
    key0 =
    ([["system"; "hashes"; "sha-1_a;b.xml"]],
     SystemHit (Raised (ValueError "no element"))) /\
  db_result
    (snd (lookup_in_database Fixtures.read_single_xso (cache world_corrupt)
            (fs world_corrupt) key0)) = Raised (ValueError "no element").
Proof. vm_compute. repeat split; reflexivity. Qed.

(** C8 as amended, on a cache whose system store has no file for [key0] and
    whose user store has one: the system store is tried first, then the
    user store answers. *)
Lemma lookup_in_database_tier_order_witness :
  lookup_in_database Fixtures.read_single_xso cache_two_stores fs_user_entry key0 =
  ([["system"; "hashes"; "sha-1_a;b.xml"]; ["user"; "hashes"; "sha-1_a;b.xml"]],
   UserHit (Returned (info_of ["a;b"]))).
Proof.
  destruct (lookup_in_database_tier_order Fixtures.read_single_xso
              cache_two_stores fs_user_entry key0) as (_ & _ & Hfall & _).
  rewrite (Hfall ["user"] "a;b").
  - vm_compute. reflexivity.
  - vm_compute. reflexivity.
  - exists "No such file or directory". vm_compute. reflexivity.
  - vm_compute. reflexivity.
  - vm_compute. reflexivity.
Defined.

(** [writeback] called with its four parameters: the document is at its
    destination, named from the hash and the quoted node, and no temporary
    file is left. *)
Example writeback_four_arguments :
  let r := writeback Fixtures.events_to_sax Fixtures.quote ["user"] "sha-1" "node"
             (captured_events good_info) (fs world0) in
  fst r = Returned tt /\
  files (snd r) !! ["user"; "sha-1_node.xml"] = Some (File true "<query></query>") /\
  files (snd r) !! ["user"; "tmp0"] = None.
Proof. vm_compute. repeat split; reflexivity. Qed.

(** [writeback] when the generator fails: the error is raised and the
    temporary file is removed; the files are those of before. *)
Example writeback_failure_removes_temporary_file :
  let r := writeback failing_events_to_sax Fixtures.quote ["user"] "sha-1" "node"
             (captured_events good_info) (fs world0) in
  fst r = Raised (OSError "No space left on device") /\
  files (snd r) = files (fs world0).
Proof. vm_compute. repeat split; reflexivity. Qed.

(** C4, on an entry added with a user store configured: the copy is in the
    memory overlay and one call of [writeback] waits in the executor, with
    two positional arguments. [writeback] has four parameters: the call
    raises [TypeError] and the file system is as before, no temporary file
    and no entry under the user store. *)
Theorem add_cache_entry_writeback_call_fails :
  let w := add_cache_entry key0 good_info world_user in
  let dest := ArgPath ["user"; "hashes"; "sha-1_a;b.xml"] in
  _memory_overlay (cache w) !! key0 = Some good_info /\
  executor w = [CallWriteback [dest; ArgEvents (captured_events good_info)]] /\
  fst (run_executor Fixtures.events_to_sax Fixtures.quote w) =
    Some (Raised (TypeError "writeback() missing required positional arguments")) /\
  fs (snd (run_executor Fixtures.events_to_sax Fixtures.quote w)) = fs world_user /\
  _memory_overlay (cache (snd (run_executor Fixtures.events_to_sax Fixtures.quote w)))
    !! key0 = Some good_info.
Proof. vm_compute. repeat split; reflexivity. Qed.

(** C5, on a query that fails: no tier has [key0], nothing is pending for
    it, [lookup_info] registers a future and queries the peer, the query
    times out. [lookup_info] raises the error of the query; the future has
    been settled by nobody: it is still pending, still registered for
    [key0], and no callback of it has been handed to the loop. *)
Theorem query_failure_leaves_future_pending :
  let s := lookup_info Fixtures.read_single_xso 1 peer [key0] world0 in
  let w1 := default world0 (world_of s) in
  let s' := resume_query s (Raised (TransportError "timeout")) w1 in
  let w2 := default world0 (world_of s') in
  outcome s = None /\
  _lookup_cache (cache w1) !! key0 = Some 0 /\
  outcome s' = Some (Raised (TransportError "timeout")) /\
  _lookup_cache (cache w2) !! key0 = Some 0 /\
  get_future w2 0 = {| fut_state := Pending; fut_callbacks := [EraseFuture key0] |} /\
  ready w2 = [].
Proof. vm_compute. repeat split; reflexivity. Qed.

End EntityCapsFacts.

(** * More properties of the cache and of the service *)

Module EntityCapsMore.
Import Py EntityCaps EntityCapsFacts.

Section Facts.

Context {K : Type} `{CapsKey K}.
Context (read_single_xso : string -> Result InfoQuery).
Context (events_to_sax : list SaxEvent -> Result string).
Context (quote : string -> string).
Context (calculate_keys : Impl -> InfoQuery -> list K).

Implicit Types (w : World (K := K)) (key : K) (fut : FutId).

(** *** Adding an entry, then looking it up *)

(** After [add_cache_entry] the entry is what [lookup_in_database] answers
    for the key, from memory and with no file opened, whatever the stores
    hold, and [lookup] returns it without being suspended. The answer for
    every other key is what it was, and no future is touched. *)
Theorem add_cache_entry_then_lookup key (entry : InfoQuery) w :
  let w' := add_cache_entry key entry w in
  lookup_in_database read_single_xso (cache w') (fs w') key =
    ([], MemoryHit entry) /\
  (forall fuel, lookup read_single_xso fuel key w' = Return entry w') /\
  (forall key', key' <> key ->
     lookup_in_database read_single_xso (cache w') (fs w') key' =
     lookup_in_database read_single_xso (cache w) (fs w) key') /\
  _lookup_cache (cache w') = _lookup_cache (cache w) /\
  futures w' = futures w /\
  ready w' = ready w.
Proof.
  cbv zeta.
  destruct (add_cache_entry_effect key entry w) as (Hm & Hl & Hf & Hr & Hfs & _).
  cbv zeta in *.
  assert (Hpaths : _system_db_path (cache (add_cache_entry key entry w)) =
                     _system_db_path (cache w) /\
                   _user_db_path (cache (add_cache_entry key entry w)) =
                     _user_db_path (cache w)).
  { unfold add_cache_entry. cbn [set_memory_overlay cache _user_db_path].
    destruct (_user_db_path (cache w)) eqn:E; cbn; rewrite ?E; split; reflexivity. }
  destruct Hpaths as [Hsys Husr].
  assert (Hhit : lookup_in_database read_single_xso
                   (cache (add_cache_entry key entry w))
                   (fs (add_cache_entry key entry w)) key = ([], MemoryHit entry)).
  { unfold lookup_in_database. rewrite Hm, lookup_insert_eq. reflexivity. }
  split; [exact Hhit|]. split; [|split; [|split; [|split]]]; try assumption.
  - intros fuel. unfold lookup. rewrite Hhit. reflexivity.
  - intros key' Hne. unfold lookup_in_database, lookup_in_user_db.
    rewrite Hm, Hsys, Husr, Hfs. rewrite lookup_insert_ne by congruence.
    reflexivity.
Qed.

(** *** [lookup_info]: the first hit wins *)

Lemma lookup_info_loop_skip_misses fuel misses keys rest w :
  (forall key, key ∈ misses ->
     snd (lookup_in_database read_single_xso (cache w) (fs w) key) = NotFound /\
     _lookup_cache (cache w) !! key = None) ->
  lookup_info_loop read_single_xso (S fuel) (misses ++ keys) rest w =
  lookup_info_loop read_single_xso (S fuel) keys rest w.
Proof.
  induction misses as [|key misses IH]; intros Hmiss; [reflexivity|].
  cbn [app lookup_info_loop].
  destruct (Hmiss key) as [Hdb Hreg]; [left|].
  rewrite (lookup_miss read_single_xso _ _ _ Hdb Hreg).
  cbn [try_except is_KeyError].
  apply IH. intros key' Hin. apply Hmiss. right. exact Hin.
Qed.

(** When the candidates before a key all miss and a store tier has the
    key, [lookup_info] returns the entry of that key at once: it is not
    suspended, it creates no future and it does not query the peer; the
    world is as before. *)
Theorem lookup_info_first_hit_wins fuel jid misses key keys (entry : InfoQuery) w :
  (forall key', key' ∈ misses ->
     snd (lookup_in_database read_single_xso (cache w) (fs w) key') = NotFound /\
     _lookup_cache (cache w) !! key' = None) ->
  db_result (snd (lookup_in_database read_single_xso (cache w) (fs w) key)) =
    Returned entry ->
  lookup_info read_single_xso (S fuel) jid (misses ++ key :: keys) w =
    Return entry w.
Proof.
  intros Hmiss Hhit. unfold lookup_info.
  rewrite (lookup_info_loop_skip_misses _ _ _ _ _ Hmiss).
  cbn [lookup_info_loop]. unfold lookup. rewrite Hhit. reflexivity.
Qed.

(** When the candidates before a key all miss and a query for the key is
    in flight (a pending future is registered for it), [lookup_info] waits
    for that future and sends no query of its own; the result of the future
    is what it returns. *)
Theorem lookup_info_joins_query_in_flight fuel jid misses key keys w fut :
  (forall key', key' ∈ misses ->
     snd (lookup_in_database read_single_xso (cache w) (fs w) key') = NotFound /\
     _lookup_cache (cache w) !! key' = None) ->
  snd (lookup_in_database read_single_xso (cache w) (fs w) key) = NotFound ->
  _lookup_cache (cache w) !! key = Some fut ->
  future_state w fut = Pending ->
  exists k,
    lookup_info read_single_xso (S fuel) jid (misses ++ key :: keys) w =
      YieldFuture fut w k /\
    forall w' result,
      future_state w' fut = FinishedResult result ->
      k w' = Return result w'.
Proof.
  intros Hmiss Hdb Hreg Hpend. unfold lookup_info.
  rewrite (lookup_info_loop_skip_misses _ _ _ _ _ Hmiss).
  cbn [lookup_info_loop].
  rewrite (lookup_not_found read_single_xso _ _ _ Hdb).
  rewrite (lookup_loop_pending _ _ _ _ Hreg Hpend). cbn [try_except].
  eexists. split; [reflexivity|].
  intros w' result Hst. cbn beta. unfold read_future. rewrite Hst. reflexivity.
Qed.

(** *** A store file that does not parse *)

(** When the memory overlay misses and the file of the system store opens
    but [read_single_xso] raises on it, [lookup_in_database] ends there: the
    user store is not tried. [lookup] raises that error, whether or not a
    future is pending for the key; only a [KeyError] of the parser is taken
    for a miss, and then too the user store has not been read. *)
Theorem system_store_parse_error key w (p : Path) (content : string) (e : Exc) :
  _memory_overlay (cache w) !! key = None ->
  _system_db_path (cache w) = Some p ->
  open_rb (fs w) (p ++ path key) = Returned content ->
  read_single_xso content = Raised e ->
  lookup_in_database read_single_xso (cache w) (fs w) key =
    ([p ++ path key], SystemHit (Raised e)) /\
  (forall fuel, is_KeyError e = false ->
     lookup read_single_xso fuel key w = Raise e w) /\
  (forall fuel, is_KeyError e = true ->
     lookup read_single_xso fuel key w = lookup_loop fuel key w).
Proof.
  intros Hm Hs Ho Hr.
  assert (E : lookup_in_database read_single_xso (cache w) (fs w) key =
              ([p ++ path key], SystemHit (Raised e))).
  { unfold lookup_in_database. rewrite Hm, Hs, Ho, Hr. reflexivity. }
  split; [exact E|]. split.
  - intros fuel He. unfold lookup. rewrite E. cbn [snd db_result].
    destruct e; try reflexivity. discriminate He.
  - intros fuel He. unfold lookup. rewrite E. cbn [snd db_result].
    destruct e; try discriminate He. reflexivity.
Qed.

(** *** The loop running the callbacks of futures *)

(** The calls the loop makes for done futures only unregister futures. *)
Lemma run_handles_frame (hs : list (DoneCallback (K := K) * FutId)) w :
  let w' := foldl (fun w0 h => run_handle h w0) w hs in
  _memory_overlay (cache w') = _memory_overlay (cache w) /\
  _system_db_path (cache w') = _system_db_path (cache w) /\
  _user_db_path (cache w') = _user_db_path (cache w) /\
  futures w' = futures w /\ fs w' = fs w /\ executor w' = executor w /\
  ready w' = ready w.
Proof.
  revert w. induction hs as [|[[key0] f0] hs IH]; intros w; cbn [foldl].
  - repeat split; reflexivity.
  - destruct (IH (run_handle (EraseFuture key0, f0) w))
      as (I1 & I2 & I3 & I4 & I5 & I6 & I7).
    cbv zeta in *. rewrite I1, I2, I3, I4, I5, I6, I7.
    unfold run_handle, _erase_future.
    destruct (_lookup_cache (cache w) !! key0) as [existing|];
      [|repeat split; reflexivity].
    destruct (decide (existing = f0)); repeat split; reflexivity.
Qed.

(** Once the loop has made the calls it was asked to make, the last of
    which is the erasure of [fut] under [key], nothing is registered for
    [key], provided [fut] was the future registered for it, or none was. *)
Lemma run_handles_erase (hs : list (DoneCallback (K := K) * FutId)) w key fut :
  (_lookup_cache (cache w) !! key = Some fut \/
   _lookup_cache (cache w) !! key = None) ->
  _lookup_cache
    (cache (foldl (fun w0 h => run_handle h w0) w (hs ++ [(EraseFuture key, fut)])))
    !! key = None.
Proof.
  revert w. induction hs as [|[[key0] f0] hs IH]; intros w Hw.
  - cbn [app foldl]. unfold run_handle, _erase_future.
    destruct Hw as [E|E]; rewrite E; [|exact E].
    destruct (decide (fut = fut)); [|congruence].
    cbn [set_lookup_cache cache _lookup_cache]. apply lookup_delete_eq.
  - cbn [app foldl]. apply IH. unfold run_handle, _erase_future.
    destruct (_lookup_cache (cache w) !! key0) as [existing|] eqn:E0; [|exact Hw].
    destruct (decide (existing = f0)); [|exact Hw].
    cbn [set_lookup_cache cache _lookup_cache].
    destruct (decide (key0 = key)) as [->|Hne].
    + right. apply lookup_delete_eq.
    + rewrite lookup_delete_ne by exact Hne. exact Hw.
Qed.

(** *** A verified answer *)

(** When every candidate key misses and the answer of the peer verifies
    against the first key, [lookup_info] returns the answer; the future it
    registered has the answer as its result, the answer is in the memory
    overlay under the first key, and the loop has been handed the callback
    that unregisters the future. Once the loop has made that call, nothing
    is pending for the key, and [lookup] for the key returns the answer
    without being suspended. *)
Theorem lookup_info_verified_answer fuel jid first_key keys (data : InfoQuery) w :
  (forall key, key ∈ first_key :: keys ->
     snd (lookup_in_database read_single_xso (cache w) (fs w) key) = NotFound /\
     _lookup_cache (cache w) !! key = None) ->
  verify first_key data = true ->
  let fut := fst (create_query_future first_key w) in
  let w1 := snd (create_query_future first_key w) in
  exists k,
    lookup_info read_single_xso (S fuel) jid (first_key :: keys) w =
      YieldQueryInfo jid (node first_key) true w1 k /\
    exists w3,
      k (Returned data) w1 = Return data w3 /\
      future_state w3 fut = FinishedResult data /\
      _memory_overlay (cache w3) !! first_key = Some data /\
      ready w3 = ready w ++ [(EraseFuture first_key, fut)] /\
      _lookup_cache (cache (run_ready w3)) !! first_key = None /\
      (forall fuel', lookup read_single_xso fuel' first_key (run_ready w3) =
                     Return data (run_ready w3)).
Proof.
  intros Hmiss Hverify. cbv zeta.
  unfold lookup_info. rewrite (lookup_info_loop_all_miss _ _ _ _ _ Hmiss).
  pose proof (create_query_future_future first_key w) as Hfut.
  pose proof (create_query_future_lookup_cache first_key w) as Hlc.
  destruct (create_query_future_frame first_key w) as (Hov & _ & _ & Hrd & _ & _).
  cbv zeta in Hov, Hrd.
  destruct (create_query_future first_key w) as [fut w1] eqn:Ecreate.
  cbn [fst snd] in *. unfold bind at 1. rewrite query_and_cache_suspended.
  cbn [try_except]. eexists. split; [reflexivity|].
  cbn beta. rewrite query_and_cache_resumed, Hverify.
  destruct (add_cache_entry_effect first_key data w1) as (Am & Al & Af & Ar & _).
  cbv zeta in Am, Al, Af, Ar.
  remember (add_cache_entry first_key data w1) as wa eqn:Ewa.
  assert (Hfut' : get_future wa fut =
                  {| fut_state := Pending; fut_callbacks := [EraseFuture first_key] |}).
  { unfold get_future in *. rewrite Af. exact Hfut. }
  unfold set_result. rewrite (settle_pending _ _ _ _ Hfut').
  cbn [try_except map].
  remember (set_ready (ready wa ++ [(EraseFuture first_key, fut)])
              (set_futures
                 (<[fut := {| fut_state := FinishedResult data; fut_callbacks := [] |}]>
                    (futures wa)) wa)) as w3 eqn:Ew3.
  exists w3. split; [reflexivity|].
  assert (Hm3 : _memory_overlay (cache w3) = _memory_overlay (cache wa))
    by (subst w3; reflexivity).
  assert (Hl3 : _lookup_cache (cache (set_ready [] w3)) = _lookup_cache (cache wa))
    by (subst w3; reflexivity).
  assert (Hr3 : ready w3 = ready wa ++ [(EraseFuture first_key, fut)])
    by (subst w3; reflexivity).
  split; [subst w3; rewrite future_state_set_ready, future_state_insert; reflexivity|].
  split; [rewrite Hm3, Am; apply lookup_insert_eq|].
  split; [rewrite Hr3, Ar, Hrd; reflexivity|].
  unfold run_ready. rewrite Hr3. split.
  - apply run_handles_erase. left. rewrite Hl3, Al, Hlc. apply lookup_insert_eq.
  - intros fuel'.
    destruct (run_handles_frame (ready wa ++ [(EraseFuture first_key, fut)])
                (set_ready [] w3)) as (F1 & _).
    cbv zeta in F1. unfold lookup, lookup_in_database. rewrite F1.
    change (_memory_overlay (cache (set_ready [] w3))) with (_memory_overlay (cache w3)).
    rewrite Hm3, Am, lookup_insert_eq. reflexivity.
Qed.

(** *** A failed verification, seen from a waiter *)

(** A coroutine waits in [lookup] for the future registered for a key that
    no store tier has. The future fails with the [ValueError] of a
    verification, the loop makes the calls it was asked to make, and the
    waiter is resumed: the future is no longer registered, and the waiter
    raises [KeyError], not the [ValueError]. *)
Theorem failed_verification_reaches_waiter_as_KeyError fuel key w fut (msg : string) :
  snd (lookup_in_database read_single_xso (cache w) (fs w) key) = NotFound ->
  _lookup_cache (cache w) !! key = Some fut ->
  get_future w fut = {| fut_state := Pending; fut_callbacks := [EraseFuture key] |} ->
  let w1 := snd (set_exception fut (ValueError msg) w) in
  let w2 := run_ready w1 in
  (exists k, lookup read_single_xso (S (S fuel)) key w = YieldFuture fut w k) /\
  fst (set_exception fut (ValueError msg) w) = Returned tt /\
  future_state w2 fut = FinishedException (ValueError msg) /\
  _lookup_cache (cache w2) !! key = None /\
  ready w2 = [] /\
  resume_future (lookup read_single_xso (S (S fuel)) key w) w2 = Raise KeyError w2.
Proof.
  intros Hdb Hreg Hfut. cbv zeta.
  assert (Hpend : future_state w fut = Pending)
    by (unfold future_state; rewrite Hfut; reflexivity).
  rewrite (lookup_not_found read_single_xso _ _ _ Hdb).
  rewrite (lookup_loop_pending _ _ _ _ Hreg Hpend).
  unfold set_exception. rewrite (settle_pending _ _ _ _ Hfut). cbn [fst snd map].
  remember (set_ready (ready w ++ [(EraseFuture key, fut)])
              (set_futures
                 (<[fut := {| fut_state := FinishedException (ValueError msg);
                              fut_callbacks := [] |}]> (futures w)) w)) as w1 eqn:Ew1.
  assert (Hr1 : ready w1 = ready w ++ [(EraseFuture key, fut)])
    by (subst w1; reflexivity).
  assert (Hl1 : _lookup_cache (cache (set_ready [] w1)) = _lookup_cache (cache w))
    by (subst w1; reflexivity).
  assert (Hs1 : future_state (set_ready [] w1) fut =
                FinishedException (ValueError msg)).
  { subst w1. rewrite !future_state_set_ready, future_state_insert. reflexivity. }
  destruct (run_handles_frame (ready w1) (set_ready [] w1))
    as (_ & _ & _ & Ff & _ & _ & Fr).
  cbv zeta in Ff, Fr.
  assert (Hs2 : future_state (run_ready w1) fut = FinishedException (ValueError msg)).
  { unfold run_ready, future_state, get_future in *. rewrite Ff. exact Hs1. }
  assert (Hl2 : _lookup_cache (cache (run_ready w1)) !! key = None).
  { unfold run_ready. rewrite Hr1. apply run_handles_erase. left.
    rewrite Hl1. exact Hreg. }
  split; [eexists; reflexivity|]. split; [reflexivity|].
  split; [exact Hs2|]. split; [exact Hl2|].
  split; [unfold run_ready; rewrite Fr; reflexivity|].
  cbn [resume_future]. unfold read_future. rewrite Hs2.
  cbn [try_except is_ValueError].
  apply lookup_loop_unregistered. exact Hl2.
Qed.

(** *** [update_hash], again and after [_shutdown] *)

Lemma mount_loop_frame info (svc : Service (K := K)) keys :
  let svc' := foldl (fun s key => mount_node info s (node key)) svc keys in
  xep115_support svc' = xep115_support svc /\
  xep390_support svc' = xep390_support svc /\
  server_info (disco_server svc') = server_info (disco_server svc).
Proof.
  revert svc. induction keys as [|key keys IH]; intros svc; cbn [foldl].
  - repeat split; reflexivity.
  - destruct (IH (mount_node info svc (node key))) as (E1 & E2 & E3).
    cbv zeta in *. rewrite E1, E2, E3. repeat split; reflexivity.
Qed.

Lemma new_keys_of_eq (svc svc' : Service (K := K)) :
  xep115_support svc' = xep115_support svc ->
  xep390_support svc' = xep390_support svc ->
  server_info (disco_server svc') = server_info (disco_server svc) ->
  new_keys_of calculate_keys svc' = new_keys_of calculate_keys svc.
Proof. intros E1 E2 E3. unfold new_keys_of. rewrite E1, E2, E3. reflexivity. Qed.

Lemma update_hash_settles (svc : Service (K := K)) :
  __current_keys (update_hash calculate_keys svc) =
    new_keys_of calculate_keys (update_hash calculate_keys svc).
Proof.
  unfold update_hash.
  destruct (decide (__current_keys svc = new_keys_of calculate_keys svc)) as [E|Hne];
    [exact E|].
  set (svc1 := foldl (fun s key => unmount_node s (node key)) svc
                 (keys_of (__current_keys svc))).
  set (svc2 := set_current_keys (new_keys_of calculate_keys svc) svc1).
  destruct (mount_loop (server_info (disco_server svc)) svc2
              (keys_of (new_keys_of calculate_keys svc))) as (_ & M2 & _).
  destruct (mount_loop_frame (server_info (disco_server svc)) svc2
              (keys_of (new_keys_of calculate_keys svc))) as (F1 & F2 & F3).
  destruct (unmount_loop svc (keys_of (__current_keys svc)))
    as (_ & _ & U3 & U4 & U5 & _).
  cbv zeta in *. fold svc1 in U3, U4, U5.
  cbn [on_ver_changed __current_keys]. rewrite M2. cbn [svc2 set_current_keys __current_keys].
  symmetry. apply new_keys_of_eq; cbn [on_ver_changed xep115_support xep390_support disco_server].
  - rewrite F1. exact U3.
  - rewrite F2. exact U4.
  - rewrite F3. exact U5.
Qed.

(** [update_hash] twice in a row: the second call finds the keys unchanged
    and does nothing, no node is unmounted or mounted and the signal is not
    fired again. *)
Theorem update_hash_idempotent (svc : Service (K := K)) :
  update_hash calculate_keys (update_hash calculate_keys svc) =
  update_hash calculate_keys svc.
Proof. apply update_hash_unchanged. apply update_hash_settles. Qed.

(** [_shutdown] unmounts the node of every current key, fires no signal,
    and keeps the key set: an [update_hash] that follows with the features
    unchanged finds the keys unchanged and mounts nothing again. *)
Theorem shutdown_unmounts_current_keys (svc : Service (K := K)) :
  effects (_shutdown svc) =
    effects svc ++ ((fun key => UnmountNode (node key)) <$> keys_of (__current_keys svc)) /\
  ver_changed_count (effects (_shutdown svc)) = ver_changed_count (effects svc) /\
  __current_keys (_shutdown svc) = __current_keys svc /\
  (__current_keys svc = new_keys_of calculate_keys svc ->
   update_hash calculate_keys (_shutdown svc) = _shutdown svc).
Proof.
  destruct (unmount_loop svc (keys_of (__current_keys svc)))
    as (U1 & U2 & U3 & U4 & U5 & _).
  cbv zeta in *. fold (_shutdown svc) in U1, U2, U3, U4, U5.
  split; [exact U1|]. split; [|split; [exact U2|]].
  - rewrite U1, ver_changed_count_app, ver_changed_count_unmounts. lia.
  - intros E. apply update_hash_unchanged. rewrite U2, E. symmetry.
    apply new_keys_of_eq; assumption.
Qed.

(** *** [writeback] *)

Lemma directory_is_not_its_entry (base : Path) (name : string) :
  base <> base ++ [name].
Proof.
  intros E. apply (f_equal (@length string)) in E. rewrite length_app in E.
  cbn in E. lia.
Qed.

(** [writeback] into an existing directory, with a document that the
    generator produces, a file name that is one path component (no [/] in
    the hash or the quoted node) and a destination that is not a directory:
    afterwards the destination, named from the hash and the quoted node,
    holds the whole document, the temporary file is gone and every other
    file is as before. The temporary name is one that no file has, as
    [NamedTemporaryFile] picks it. *)
Theorem writeback_publishes_document (base_path : Path) (hash_ node_ : string)
    (captured : list SaxEvent) (fs : FileSystem) (document : string) :
  let name :=
    String.append hash_ (String.append "_" (String.append (quote node_) ".xml")) in
  let dest_path := base_path ++ [name] in
  files fs !! base_path = Some Directory ->
  files fs !! (base_path ++ [String.append "tmp" (pretty (tmp_names fs))]) = None ->
  events_to_sax captured = Returned document ->
  is_absolute name = false ->
  path_components name = [name] ->
  files fs !! dest_path <> Some Directory ->
  writeback events_to_sax quote base_path hash_ node_ captured fs =
    (Returned tt,
     {| files := <[dest_path := File true document]> (files fs);
        tmp_names := S (tmp_names fs) |}).
Proof.
  cbv zeta. intros Hdir Hfresh Hdoc Habs Hname Hdest.
  unfold writeback, NamedTemporaryFile, path_div.
  rewrite Hdir, Hdoc, Habs, Hname. unfold write_file, os_replace. cbn [files tmp_names].
  rewrite insert_insert_eq, lookup_insert_eq, removelast_last.
  rewrite lookup_insert_ne by (symmetry; apply directory_is_not_its_entry).
  rewrite Hdir.
  assert (Hd : <[base_path ++ [String.append "tmp" (pretty (tmp_names fs))] :=
                   File true document]> (files fs)
               !! (base_path ++
                   [String.append hash_
                      (String.append "_" (String.append (quote node_) ".xml"))])
               <> Some Directory).
  { rewrite lookup_insert. case_decide; [discriminate | exact Hdest]. }
  destruct (<[_ := _]> (files fs) !! _) as [[|r c]|] eqn:E in Hd |- *;
    [contradiction Hd; reflexivity | |];
    rewrite delete_insert_eq, (delete_id _ _ Hfresh); reflexivity.
Qed.

(** [writeback] when it fails: into a directory that does not exist it
    raises [OSError] and creates nothing; when the generator raises in the
    middle of the document, the error comes out, the temporary file is
    removed and the files are those of before, the destination included. *)
Theorem writeback_failure_leaves_files (base_path : Path) (hash_ node_ : string)
    (captured : list SaxEvent) (fs : FileSystem) :
  (files fs !! base_path <> Some Directory ->
   writeback events_to_sax quote base_path hash_ node_ captured fs =
     (Raised (OSError "No such file or directory"), fs)) /\
  (forall e,
     files fs !! base_path = Some Directory ->
     files fs !! (base_path ++ [String.append "tmp" (pretty (tmp_names fs))]) = None ->
     events_to_sax captured = Raised e ->
     fst (writeback events_to_sax quote base_path hash_ node_ captured fs) = Raised e /\
     files (snd (writeback events_to_sax quote base_path hash_ node_ captured fs)) =
       files fs).
Proof.
  split.
  - intros Hdir. unfold writeback, NamedTemporaryFile.
    destruct (files fs !! base_path) as [[|r c]|]; try reflexivity.
    contradiction Hdir. reflexivity.
  - intros e Hdir Hfresh Hraise. unfold writeback, NamedTemporaryFile.
    rewrite Hdir, Hraise. unfold os_unlink. cbn [fst snd files].
    rewrite delete_insert_eq, (delete_id _ _ Hfresh). split; reflexivity.
Qed.

End Facts.

(** *** The properties on concrete keys *)

Import Fixtures.

Lemma lookup_info_first_hit_wins_witness :
  lookup_info Fixtures.read_single_xso 1 peer [key0; key1] world_cached =
    Return (info_of ["c"]) world_cached.
Proof.
  apply (lookup_info_first_hit_wins Fixtures.read_single_xso 0 peer [key0] key1 []
           (info_of ["c"]) world_cached).
  - intros key Hin. apply list_elem_of_singleton in Hin. subst key.
    split; vm_compute; reflexivity.
  - vm_compute. reflexivity.
Defined.

Lemma lookup_info_joins_query_in_flight_witness :
  exists k,
    lookup_info Fixtures.read_single_xso 1 peer [key0]
      (snd (create_query_future key0 world0)) =
      YieldFuture 0 (snd (create_query_future key0 world0)) k /\
    forall w' result,
      future_state w' 0 = FinishedResult result -> k w' = Return result w'.
Proof.
  apply (lookup_info_joins_query_in_flight Fixtures.read_single_xso 0 peer [] key0 []
           (snd (create_query_future key0 world0)) 0).
  - intros key Hin. inversion Hin.
  - vm_compute. reflexivity.
  - vm_compute. reflexivity.
  - vm_compute. reflexivity.
Defined.

Lemma system_store_parse_error_witness :
  lookup_in_database Fixtures.read_single_xso (cache world_corrupt) (fs world_corrupt)
    key0 =
    ([["system"; "hashes"; "sha-1_a;b.xml"]],
     SystemHit (Raised (ValueError "no element"))) /\
  lookup Fixtures.read_single_xso 1 key0 world_corrupt =
    Raise (ValueError "no element") world_corrupt.
Proof.
  destruct (system_store_parse_error Fixtures.read_single_xso key0 world_corrupt
              ["system"] EmptyString (ValueError "no element"))
    as (E & Hraise & _); try (vm_compute; reflexivity).
  split; [exact E | apply Hraise; reflexivity].
Defined.

Lemma lookup_info_verified_answer_witness :
  exists k,
    lookup_info Fixtures.read_single_xso 1 peer [key0] world0 =
      YieldQueryInfo peer (node key0) true (snd (create_query_future key0 world0)) k /\
    exists w3,
      k (Returned good_info) (snd (create_query_future key0 world0)) =
        Return good_info w3 /\
      future_state w3 (fst (create_query_future key0 world0)) =
        FinishedResult good_info /\
      _memory_overlay (cache w3) !! key0 = Some good_info /\
      ready w3 = ready world0 ++ [(EraseFuture key0, fst (create_query_future key0 world0))] /\
      _lookup_cache (cache (run_ready w3)) !! key0 = None /\
      (forall fuel', lookup Fixtures.read_single_xso fuel' key0 (run_ready w3) =
                     Return good_info (run_ready w3)).
Proof.
  apply (lookup_info_verified_answer Fixtures.read_single_xso 0 peer key0 []
           good_info world0).
  - intros key Hin. apply list_elem_of_singleton in Hin. subst key.
    split; vm_compute; reflexivity.
  - vm_compute. reflexivity.
Defined.

Lemma failed_verification_reaches_waiter_as_KeyError_witness :
  let w := snd (create_query_future key0 world0) in
  let w2 := run_ready (snd (set_exception 0 (ValueError "hash mismatch") w)) in
  (exists k, lookup Fixtures.read_single_xso 2 key0 w = YieldFuture 0 w k) /\
  fst (set_exception 0 (ValueError "hash mismatch") w) = Returned tt /\
  future_state w2 0 = FinishedException (ValueError "hash mismatch") /\
  _lookup_cache (cache w2) !! key0 = None /\
  ready w2 = [] /\
  resume_future (lookup Fixtures.read_single_xso 2 key0 w) w2 = Raise KeyError w2.
Proof.
  cbv zeta.
  apply (failed_verification_reaches_waiter_as_KeyError Fixtures.read_single_xso 0
           key0 (snd (create_query_future key0 world0)) 0 "hash mismatch");
    vm_compute; reflexivity.
Defined.

Lemma writeback_publishes_document_witness :
  writeback Fixtures.events_to_sax Fixtures.quote ["user"] "sha-1" "node"
    (captured_events good_info) (fs world0) =
  (Returned tt,
   {| files := <[ ["user"; "sha-1_node.xml"] := File true "<query></query>" ]>
                 (files (fs world0));
      tmp_names := 1 |}).
Proof.
  apply (writeback_publishes_document Fixtures.events_to_sax Fixtures.quote ["user"]
           "sha-1" "node" (captured_events good_info) (fs world0) "<query></query>");
    try (vm_compute; reflexivity).
  vm_compute. discriminate.
Defined.

Lemma writeback_failure_leaves_files_witness :
  fst (writeback failing_events_to_sax Fixtures.quote ["user"] "sha-1" "node"
         (captured_events good_info) (fs world0)) =
    Raised (OSError "No space left on device") /\
  files (snd (writeback failing_events_to_sax Fixtures.quote ["user"] "sha-1" "node"
                (captured_events good_info) (fs world0))) = files (fs world0).
Proof.
  destruct (writeback_failure_leaves_files failing_events_to_sax Fixtures.quote
              ["user"] "sha-1" "node" (captured_events good_info) (fs world0))
    as (_ & Hgen).
  apply Hgen; vm_compute; reflexivity.
Defined.

End EntityCapsMore.
